(** * Thoughtful AI support agent: retrieval and response composition

    A shallow embedding of [app.py] (class [ThoughtfulAIAgent]) and of the
    parts of the Python runtime it relies on, followed by the properties of
    the retrieval logic.

    Modelling conventions.
    - A Python [str] is a [string]; its characters are read as the code
      points 0..255, on which [str.lower], [str.strip] and [in] are
      character-wise.
    - Python floats are modelled by exact rationals ([Q]).  The program only
      adds, divides two integers, takes a minimum and compares scores; the
      properties below use the order of the scores and never a rounding.
    - Values read from the knowledge file are dynamically typed ([pyval]:
      the JSON values, numbers being integers); an operation that Python
      rejects raises ([Raise]).
    - The generation service is an oracle that sees the requests made so
      far; the log of requests is threaded through the calls that use it. *)

From Stdlib Require Import String Ascii Bool Arith ZArith QArith List.
From Stdlib Require Import DecimalString.
From Stdlib Require Import Lia Lqa Sorted Permutation.
Import ListNotations.

Set Implicit Arguments.
Set Warnings "-register-all".

Close Scope Q_scope.
Open Scope nat_scope.

(** ** Python strings *)

Module PyStr.

(** [str.lower] on one character: the ASCII capitals and the Latin-1
    capitals (all of 0xC0..0xDE but the multiplication sign 0xD7). *)
Definition lower_char (c : ascii) : ascii :=
  let n := nat_of_ascii c in
  if ((65 <=? n) && (n <=? 90))
     || ((192 <=? n) && (n <=? 222) && negb (n =? 215))
  then ascii_of_nat (n + 32)
  else c.

Fixpoint lower (s : string) : string :=
  match s with
  | EmptyString => EmptyString
  | String c s' => String (lower_char c) (lower s')
  end.

(** The characters [str.strip()] removes: those with [str.isspace]. *)
Definition is_space (c : ascii) : bool :=
  let n := nat_of_ascii c in
  ((9 <=? n) && (n <=? 13)) || ((28 <=? n) && (n <=? 32))
  || (n =? 133) || (n =? 160).

Fixpoint lstrip (s : string) : string :=
  match s with
  | EmptyString => EmptyString
  | String c s' => if is_space c then lstrip s' else s
  end.

Definition is_empty (s : string) : bool :=
  match s with EmptyString => true | String _ _ => false end.

Fixpoint rstrip (s : string) : string :=
  match s with
  | EmptyString => EmptyString
  | String c s' =>
      let r := rstrip s' in
      if is_space c && is_empty r then EmptyString else String c r
  end.

Definition strip (s : string) : string := rstrip (lstrip s).

(** [needle in hay] *)
Fixpoint contains (needle hay : string) : bool :=
  prefix needle hay
  || match hay with
     | EmptyString => false
     | String _ hay' => contains needle hay'
     end.

Fixpoint all_space (s : string) : bool :=
  match s with
  | EmptyString => true
  | String c s' => is_space c && all_space s'
  end.

End PyStr.

(** ** [difflib.SequenceMatcher]

    The program calls [SequenceMatcher(None, a, b).ratio()] of Python's
    standard library.  The model follows Lib/difflib.py: [isjunk] is [None],
    so the junk set is empty and the two loops that extend a match over junk
    never run; [autojunk] keeps its default [True]. *)

Module Difflib.

Record Match := mkMatch { m_a : nat; m_b : nat; m_size : nat }.

Definition elt (s : list ascii) (i : nat) : ascii := nth i s Ascii.zero.

(** Positions of [c] in [s], counted from [i], in increasing order. *)
Fixpoint indices (s : list ascii) (c : ascii) (i : nat) : list nat :=
  match s with
  | [] => []
  | x :: s' =>
      if Ascii.eqb x c then i :: indices s' c (S i) else indices s' c (S i)
  end.

(** A dictionary from positions of [b] to lengths, absent keys read 0. *)
Definition dict := list (nat * nat).

Fixpoint dict_get (d : dict) (j : nat) : nat :=
  match d with
  | [] => 0
  | (j', k) :: d' => if j' =? j then k else dict_get d' j
  end.

(** [j2lenget(j-1, 0)]: the key -1 is never present. *)
Definition prev_len (j2len : dict) (j : nat) : nat :=
  match j with
  | 0 => 0
  | S j' => dict_get j2len j'
  end.

Section Matcher.

Variables a b : list ascii.

(** [__chain_b]: [b2j] without the popular elements. *)
Definition popular (c : ascii) : bool :=
  (200 <=? length b) && (length b / 100 + 1 <? length (indices b c 0)).

Definition b2j (c : ascii) : list nat :=
  if popular c then [] else indices b c 0.

(** The loop [for j in b2j.get(a[i], nothing)] of [find_longest_match]. *)
Fixpoint scan_row (i blo bhi : nat) (j2len : dict) (js : list nat)
         (newj2len : dict) (best : Match) : dict * Match :=
  match js with
  | [] => (newj2len, best)
  | j :: js' =>
      if j <? blo then scan_row i blo bhi j2len js' newj2len best
      else if bhi <=? j then (newj2len, best)
      else
        let k := prev_len j2len j + 1 in
        scan_row i blo bhi j2len js' ((j, k) :: newj2len)
          (if m_size best <? k then mkMatch (i + 1 - k) (j + 1 - k) k
           else best)
  end.

(** The loop [for i in range(alo, ahi)]. *)
Fixpoint scan_rows (rows : list nat) (blo bhi : nat) (j2len : dict)
         (best : Match) : Match :=
  match rows with
  | [] => best
  | i :: rows' =>
      let '(newj2len, best') :=
        scan_row i blo bhi j2len (b2j (elt a i)) [] best in
      scan_rows rows' blo bhi newj2len best'
  end.

(** First [while]: extend the match to the left. *)
Fixpoint extend_left (alo blo besti bestj bestsize : nat) : Match :=
  match besti, bestj with
  | S i', S j' =>
      if (alo <? besti) && (blo <? bestj)
         && Ascii.eqb (elt a i') (elt b j')
      then extend_left alo blo i' j' (S bestsize)
      else mkMatch besti bestj bestsize
  | _, _ => mkMatch besti bestj bestsize
  end.

(** Second [while]: extend the match to the right.  Every turn moves
    [besti + bestsize] one step towards [ahi]. *)
Fixpoint extend_right (fuel ahi bhi besti bestj bestsize : nat) : Match :=
  match fuel with
  | 0 => mkMatch besti bestj bestsize
  | S fuel' =>
      if (besti + bestsize <? ahi) && (bestj + bestsize <? bhi)
         && Ascii.eqb (elt a (besti + bestsize)) (elt b (bestj + bestsize))
      then extend_right fuel' ahi bhi besti bestj (S bestsize)
      else mkMatch besti bestj bestsize
  end.

Definition find_longest_match (alo ahi blo bhi : nat) : Match :=
  let m := scan_rows (seq alo (ahi - alo)) blo bhi [] (mkMatch alo blo 0) in
  let m := extend_left alo blo (m_a m) (m_b m) (m_size m) in
  extend_right (ahi - (m_a m + m_size m)) ahi bhi (m_a m) (m_b m) (m_size m).

(** The work list of [get_matching_blocks]; the head of [queue] is the
    end of the Python list, where [pop] and [append] work. *)
Fixpoint blocks_loop (fuel : nat) (queue : list (nat * nat * nat * nat))
         (matching_blocks : list Match) : option (list Match) :=
  match queue with
  | [] => Some matching_blocks
  | (alo, ahi, blo, bhi) :: queue' =>
      match fuel with
      | 0 => None
      | S fuel' =>
          let x := find_longest_match alo ahi blo bhi in
          let i := m_a x in
          let j := m_b x in
          let k := m_size x in
          if k =? 0 then blocks_loop fuel' queue' matching_blocks
          else
            let q1 :=
              if (alo <? i) && (blo <? j)
              then (alo, i, blo, j) :: queue' else queue' in
            let q2 :=
              if (i + k <? ahi) && (j + k <? bhi)
              then (i + k, ahi, j + k, bhi) :: q1 else q1 in
            blocks_loop fuel' q2 (matching_blocks ++ [x])
      end
  end.

Definition loop_fuel : nat := 2 * length a + 2.

(** The blocks found, before [get_matching_blocks] sorts them and merges
    adjacent ones; neither step changes the sum of the sizes. *)
Definition found_blocks : option (list Match) :=
  blocks_loop loop_fuel [(0, length a, 0, length b)] [].

Definition sum_sizes (l : list Match) : nat :=
  fold_right (fun x n => m_size x + n) 0 l.

(** [sum(triple[-1] for triple in self.get_matching_blocks())] *)
Definition matches : nat :=
  match found_blocks with
  | Some l => sum_sizes l
  | None => 0
  end.

(** [_calculate_ratio(matches, len(a) + len(b))] *)
Definition ratio : Q :=
  let length := (length a + length b)%nat in
  if length =? 0 then 1%Q
  else (2 * inject_Z (Z.of_nat matches) / inject_Z (Z.of_nat length))%Q.

End Matcher.

End Difflib.

Definition chars (s : string) : list ascii := list_ascii_of_string s.


(** ** Python values, exceptions and built-ins *)

Inductive pyval : Type :=
| PNone
| PBool (b : bool)
| PInt (n : Z)
| PStr (s : string)
| PList (l : list pyval)
| PDict (items : list (string * pyval)).

Inductive exn : Type := AttributeError | TypeError.

Inductive result (A : Type) : Type :=
| Ok (x : A)
| Raise (e : exn).

Arguments Ok {A} x.
Arguments Raise {A} e.

Definition bind {A B : Type} (r : result A) (k : A -> result B) : result B :=
  match r with
  | Ok x => k x
  | Raise e => Raise e
  end.

Notation "x <- r ;; k" := (bind r (fun x => k))
  (at level 61, r at next level, right associativity).

Module Py.

Import PyStr.

Definition is_nil {A : Type} (l : list A) : bool :=
  match l with [] => true | _ :: _ => false end.

(** Truth value of an object, as [if] and [not] test it. *)
Definition truthy (v : pyval) : bool :=
  match v with
  | PNone => false
  | PBool b => b
  | PInt n => negb (n =? 0)%Z
  | PStr s => negb (is_empty s)
  | PList l => negb (is_nil l)
  | PDict d => negb (is_nil d)
  end.

Fixpoint lookup (key : string) (items : list (string * pyval))
  : option pyval :=
  match items with
  | [] => None
  | (k, v) :: items' => if String.eqb k key then Some v else lookup key items'
  end.

(** [v.get(key, default)]: only a dict has the method. *)
Definition get (v : pyval) (key : string) (default : pyval) : result pyval :=
  match v with
  | PDict d =>
      Ok (match lookup key d with Some x => x | None => default end)
  | _ => Raise AttributeError
  end.

(** [for x in v]: a list gives its elements, a dict its keys, a str its
    characters; the other values are not iterable. *)
Definition iter (v : pyval) : result (list pyval) :=
  match v with
  | PList l => Ok l
  | PDict d => Ok (map (fun kv => PStr (fst kv)) d)
  | PStr s => Ok (map (fun c => PStr (String c EmptyString)) (chars s))
  | _ => Raise TypeError
  end.

(** [v.lower()]: only a str has the method. *)
Definition lower (v : pyval) : result string :=
  match v with
  | PStr s => Ok (PyStr.lower s)
  | _ => Raise AttributeError
  end.

(** Comparison of floats and [min(x, y)], which keeps [x] unless [y] is
    strictly smaller. *)
Definition lt (x y : Q) : bool :=
  match (x ?= y)%Q with Lt => true | _ => false end.

Definition le (x y : Q) : bool :=
  match (x ?= y)%Q with Gt => false | _ => true end.

Definition min (x y : Q) : Q := if lt y x then y else x.

(** Decimal text of integers, as [str] and f-strings print them. *)
Definition str_of_nat (n : nat) : string :=
  NilZero.string_of_uint (Nat.to_uint n).

Definition str_of_Z (n : Z) : string :=
  NilZero.string_of_int (Z.to_int n).

Definition nl : string := String (ascii_of_nat 10) EmptyString.
Definition backslash : ascii := ascii_of_nat 92.
Definition squote : ascii := ascii_of_nat 39.
Definition dquote : ascii := ascii_of_nat 34.

Definition hex_digit (n : nat) : ascii :=
  if n <? 10 then ascii_of_nat (48 + n) else ascii_of_nat (87 + n).

(** One character of [repr(s)] for a str quoted with [quote]. *)
Definition repr_char (quote c : ascii) : string :=
  let n := nat_of_ascii c in
  let one x := String x EmptyString in
  if Ascii.eqb c quote || Ascii.eqb c backslash then String backslash (one c)
  else if n =? 9 then String backslash "t"
  else if n =? 10 then String backslash "n"
  else if n =? 13 then String backslash "r"
  else if (n <? 32) || ((127 <=? n) && (n <=? 160)) || (n =? 173)
       then String backslash
              (String "x" (String (hex_digit (n / 16)) (one (hex_digit (n mod 16)))))
  else one c.

Definition repr_str (s : string) : string :=
  let has c := existsb (Ascii.eqb c) (chars s) in
  let quote := if has squote && negb (has dquote) then dquote else squote in
  String quote
    (String.concat EmptyString (map (repr_char quote) (chars s))
     ++ String quote EmptyString)%string.

(** [repr(v)] *)
Fixpoint repr (v : pyval) : string :=
  (match v with
   | PNone => "None"
   | PBool true => "True"
   | PBool false => "False"
   | PInt n => str_of_Z n
   | PStr s => repr_str s
   | PList l => "[" ++ String.concat ", " (map repr l) ++ "]"
   | PDict d =>
       "{"
       ++ String.concat ", "
            (map (fun kv => repr_str (fst kv) ++ ": " ++ repr (snd kv)) d)
       ++ "}"
   end)%string.

(** [str(v)], which an f-string field without a format uses. *)
Definition str (v : pyval) : string :=
  match v with
  | PStr s => s
  | _ => repr v
  end.

(** [l.sort(key=key, reverse=True)]: decreasing keys, and elements with
    equal keys keep the order they had (Python's sort is stable, also when
    reversed). *)
Section Sort.
Variable A : Type.
Variable key : A -> Q.

Fixpoint insert_reverse (x : A) (l : list A) : list A :=
  match l with
  | [] => [x]
  | y :: l' =>
      if lt (key x) (key y) then y :: insert_reverse x l' else x :: l
  end.

Definition sort_reverse (l : list A) : list A :=
  fold_right insert_reverse [] l.
End Sort.

End Py.

(** ** The agent *)

(** One call of [chat.completions.create] and what comes back: the text of
    the first choice, or an exception. *)
Record Request : Type := mkRequest {
  model : string;
  system_content : string;
  user_content : string;
  max_tokens : nat;
  temperature : Q
}.

Inductive Completion : Type :=
| Content (text : string)
| Failure.

(** The service answers a request knowing the requests made before it. *)
Definition Client : Type := list Request -> Request -> Completion.

Record ThoughtfulAIAgent : Type := mkAgent {
  qa_data : pyval;
  openai_client : option Client
}.

Record ScoredMatch : Type := mkScored {
  sm_question : pyval;
  sm_answer : pyval;
  sm_score : Q
}.

Record Response : Type := mkResponse {
  answer : pyval;
  source : string;
  confidence : Q
}.

(** What [json.load] on the knowledge file does. *)
Inductive FileRead : Type :=
| FileNotFoundError
| JSONDecodeError
| Loaded (data : pyval).

Module Agent.

Import PyStr.

(** [_load_data] *)
Definition load_data (f : FileRead) : result pyval :=
  match f with
  | Loaded data => Py.get data "questions" (PList [])
  | FileNotFoundError => Ok (PList [])
  | JSONDecodeError => Ok (PList [])
  end.

(** [_calculate_similarity] *)
Definition calculate_similarity (text1 text2 : pyval) : result Q :=
  l1 <- Py.lower text1 ;;
  l2 <- Py.lower text2 ;;
  Ok (Difflib.ratio (chars l1) (chars l2)).

Definition keywords : list string :=
  ["eva"; "cam"; "phil"; "eligibility"; "claims"; "payment";
   "verification"; "processing"; "posting"; "agents"; "benefits";
   "thoughtful"]%string.

(** [for keyword in keywords: if keyword in user_question_lower and
    keyword in question.lower(): keyword_boost += 0.15] *)
Fixpoint keyword_loop (kws : list string) (user_question_lower : string)
         (question : pyval) (keyword_boost : Q) : result Q :=
  match kws with
  | [] => Ok keyword_boost
  | keyword :: kws' =>
      if contains keyword user_question_lower then
        question_lower <- Py.lower question ;;
        keyword_loop kws' user_question_lower question
          (if contains keyword question_lower
           then keyword_boost + 0.15 else keyword_boost)%Q
      else keyword_loop kws' user_question_lower question keyword_boost
  end.

(** The loop [for qa in self.qa_data] of [_find_best_match]. *)
Fixpoint best_match_loop (user_question_lower : string) (items : list pyval)
         (best_match : pyval) (best_score : Q) : result (pyval * Q) :=
  match items with
  | [] => Ok (best_match, best_score)
  | qa :: items' =>
      question <- Py.get qa "question" (PStr "") ;;
      answer <- Py.get qa "answer" (PStr "") ;;
      score <- calculate_similarity (PStr user_question_lower) question ;;
      keyword_boost <- keyword_loop keywords user_question_lower question 0 ;;
      let total_score := Py.min (score + keyword_boost) 1.0 in
      if Py.lt best_score total_score
      then best_match_loop user_question_lower items' answer total_score
      else best_match_loop user_question_lower items' best_match best_score
  end.

(** [_find_best_match]; the pair [(None, 0)] is [(PNone, 0)]. *)
Definition find_best_match (self : ThoughtfulAIAgent)
           (user_question : string) (threshold : Q) : result (pyval * Q) :=
  if negb (Py.truthy (qa_data self)) then Ok (PNone, 0%Q)
  else
    let user_question_lower := lower user_question in
    items <- Py.iter (qa_data self) ;;
    best <- best_match_loop user_question_lower items PNone 0 ;;
    if Py.le threshold (snd best) then Ok (fst best, snd best)
    else Ok (PNone, 0%Q).

(** The loop [for qa in self.qa_data] of [_get_relevant_context]. *)
Fixpoint context_loop (user_question_lower : string) (items : list pyval)
         (matches : list ScoredMatch) : result (list ScoredMatch) :=
  match items with
  | [] => Ok matches
  | qa :: items' =>
      question <- Py.get qa "question" (PStr "") ;;
      answer <- Py.get qa "answer" (PStr "") ;;
      score <- calculate_similarity (PStr user_question_lower) question ;;
      keyword_boost <- keyword_loop keywords user_question_lower question 0 ;;
      let total_score := Py.min (score + keyword_boost) 1.0 in
      if Py.lt 0.3 total_score
      then context_loop user_question_lower items'
             (matches ++ [mkScored question answer total_score])
      else context_loop user_question_lower items' matches
  end.

Definition context_header : string :=
  ("Here is relevant information from our knowledge base:"
   ++ Py.nl ++ Py.nl)%string.

(** [for i, match in enumerate(top_matches, 1): context += ...] *)
Fixpoint format_loop (i : nat) (top_matches : list ScoredMatch)
         (context : string) : string :=
  match top_matches with
  | [] => context
  | m :: rest =>
      format_loop (S i) rest
        (context ++ Py.str_of_nat i ++ ". Q: " ++ Py.str (sm_question m)
         ++ Py.nl ++ "   A: " ++ Py.str (sm_answer m) ++ Py.nl ++ Py.nl)%string
  end.

(** [_get_relevant_context] *)
Definition get_relevant_context (self : ThoughtfulAIAgent)
           (user_question : string) : result (option string) :=
  if negb (Py.truthy (qa_data self)) then Ok None
  else
    let user_question_lower := lower user_question in
    items <- Py.iter (qa_data self) ;;
    matches <- context_loop user_question_lower items [] ;;
    let matches := Py.sort_reverse sm_score matches in
    let top_matches := firstn 3 matches in
    if Py.is_nil top_matches then Ok None
    else Ok (Some (format_loop 1 top_matches context_header)).

Definition no_match_message : string :=
  ("I apologize, but I don't have specific information about that topic. "
   ++ "I'm specialized in answering questions about Thoughtful AI's automation agents "
   ++ "(EVA, CAM, and PHIL). Could you please rephrase your question or ask about "
   ++ "our agents?")%string.

Definition fallback_error_message : string :=
  ("I encountered an issue processing your question. "
   ++ "Please try asking about Thoughtful AI's agents (EVA, CAM, or PHIL).")%string.

Definition no_service_message : string :=
  ("I apologize, but I need an OpenAI API key to provide intelligent responses. "
   ++ "Please set the OPENAI_API_KEY environment variable.")%string.

Definition service_error_message : string :=
  ("I'm having trouble processing your question right now. "
   ++ "Please try asking about Thoughtful AI's agents (EVA, CAM, or PHIL).")%string.

Definition validation_message : string :=
  "Please ask me a question about Thoughtful AI's agents!".

(** [_get_fallback_response] *)
Definition get_fallback_response (self : ThoughtfulAIAgent)
           (user_question : string) (log : list Request)
  : string * list Request :=
  match openai_client self with
  | None => (no_match_message, log)
  | Some client =>
      let request :=
        mkRequest "gpt-3.5-turbo"
          ("You are a helpful customer support assistant. "
           ++ "Provide concise, friendly responses to user questions.")
          user_question 150 0.7 in
      match client log request with
      | Content text => (text, log ++ [request])
      | Failure => (fallback_error_message, log ++ [request])
      end
  end.

Definition system_persona : string :=
  ("You are a helpful customer support AI agent for Thoughtful AI, a company that provides "
   ++ "AI-powered automation agents for healthcare processes. "
   ++ "Your role is to assist users with questions about Thoughtful AI's products and services. "
   ++ "Be friendly, professional, and concise in your responses.")%string.

Definition context_instruction : string :=
  (Py.nl
   ++ "Use the above information to answer questions about Thoughtful AI's agents. "
   ++ "If the question is about our agents (EVA, CAM, PHIL), use the provided information. "
   ++ "For other questions, provide helpful general responses.")%string.

(** The two places of [_get_llm_response] that answer from the knowledge
    base: [answer if answer else message]. *)
Definition direct_match (self : ThoughtfulAIAgent) (user_question : string)
           (message : string) : result pyval :=
  best <- find_best_match self user_question 0.5 ;;
  if Py.truthy (fst best) then Ok (fst best) else Ok (PStr message).

(** [_get_llm_response] *)
Definition get_llm_response (self : ThoughtfulAIAgent)
           (user_question : string) (context : option string)
           (log : list Request) : result pyval * list Request :=
  match openai_client self with
  | None => (direct_match self user_question no_service_message, log)
  | Some client =>
      let system_message :=
        match context with
        | Some c =>
            if is_empty c then system_persona
            else (system_persona ++ Py.nl ++ Py.nl ++ c
                  ++ context_instruction)%string
        | None => system_persona
        end in
      let request :=
        mkRequest "gpt-3.5-turbo" system_message user_question 200 0.7 in
      match client log request with
      | Content text => (Ok (PStr text), log ++ [request])
      | Failure =>
          (direct_match self user_question service_error_message,
           log ++ [request])
      end
  end.

(** [get_response] *)
Definition get_response (self : ThoughtfulAIAgent) (user_question : string)
           (log : list Request) : result Response * list Request :=
  if is_empty user_question || is_empty (strip user_question)
  then (Ok (mkResponse (PStr validation_message) "validation" 0), log)
  else
    match get_relevant_context self user_question with
    | Raise e => (Raise e, log)
    | Ok context =>
        let is_about_agents :=
          match context with Some _ => true | None => false end in
        match get_llm_response self user_question context log with
        | (Raise e, log') => (Raise e, log')
        | (Ok answer, log') =>
            (Ok (mkResponse answer
                   (if is_about_agents then "ai_agent" else "ai_general")
                   (if is_about_agents then 1.0 else 0.5)%Q),
             log')
        end
    end.

End Agent.

(** The knowledge file as section 6 of the design describes it: a list of
    objects with string fields, either of which may be missing. *)
Record QAEntry : Type := mkEntry {
  qa_question : option string;
  qa_answer : option string
}.

Definition field (key : string) (v : option string) : list (string * pyval) :=
  match v with
  | Some s => [(key, PStr s)]
  | None => []
  end.

Definition encode_entry (e : QAEntry) : pyval :=
  PDict (field "question" (qa_question e) ++ field "answer" (qa_answer e)).

Definition encode_store (l : list QAEntry) : pyval :=
  PList (map encode_entry l).

(** ** Notions used in the statements *)

Import PyStr Agent.

Definition text_of (v : option string) : string :=
  match v with
  | Some s => s
  | None => EmptyString
  end.

(** The keyword loop on a question that is a str, lower-cased. *)
Fixpoint boost_of (kws : list string) (user_question_lower question_lower : string)
         (keyword_boost : Q) : Q :=
  match kws with
  | [] => keyword_boost
  | keyword :: kws' =>
      boost_of kws' user_question_lower question_lower
        (if contains keyword user_question_lower
            && contains keyword question_lower
         then keyword_boost + 0.15 else keyword_boost)%Q
  end.

(** The combined score of a stored question against the lower-cased
    query. *)
Definition total_score (user_question_lower question : string) : Q :=
  Py.min
    (Difflib.ratio (chars (lower user_question_lower)) (chars (lower question))
     + boost_of keywords user_question_lower (lower question) 0)%Q
    1.0%Q.

(** What one turn of either retrieval loop computes before it decides. *)
Definition evaluate (user_question_lower : string) (qa : pyval)
  : result ScoredMatch :=
  question <- Py.get qa "question" (PStr "") ;;
  answer <- Py.get qa "answer" (PStr "") ;;
  score <- calculate_similarity (PStr user_question_lower) question ;;
  keyword_boost <- keyword_loop keywords user_question_lower question 0 ;;
  Ok (mkScored question answer (Py.min (score + keyword_boost) 1.0)).

Fixpoint evaluate_all (user_question_lower : string) (items : list pyval)
  : result (list ScoredMatch) :=
  match items with
  | [] => Ok []
  | qa :: items' =>
      m <- evaluate user_question_lower qa ;;
      ms <- evaluate_all user_question_lower items' ;;
      Ok (m :: ms)
  end.

(** The running maximum of [_find_best_match] over evaluated entries. *)
Fixpoint best_of (ms : list ScoredMatch) (best_match : pyval) (best_score : Q)
  : pyval * Q :=
  match ms with
  | [] => (best_match, best_score)
  | m :: ms' =>
      if Py.lt best_score (sm_score m)
      then best_of ms' (sm_answer m) (sm_score m)
      else best_of ms' best_match best_score
  end.

Definition relevant (ms : list ScoredMatch) : list ScoredMatch :=
  filter (fun m => Py.lt 0.3 (sm_score m)) ms.

(** An entry of a well-formed store, evaluated. *)
Definition scored (user_question_lower : string) (e : QAEntry) : ScoredMatch :=
  mkScored (PStr (text_of (qa_question e))) (PStr (text_of (qa_answer e)))
    (total_score user_question_lower (text_of (qa_question e))).

Definition entry_score (user_question : string) (e : QAEntry) : Q :=
  total_score (lower user_question) (text_of (qa_question e)).

(** One numbered block of the context, for the [i]-th match. *)
Definition context_block (i : nat) (question answer : string) : string :=
  (Py.str_of_nat i ++ ". Q: " ++ question ++ Py.nl
   ++ "   A: " ++ answer ++ Py.nl ++ Py.nl)%string.

Definition blocks_of (l : list (nat * QAEntry)) : string :=
  fold_right
    (fun p rest =>
       (context_block (fst p) (text_of (qa_question (snd p)))
          (text_of (qa_answer (snd p))) ++ rest)%string)
    EmptyString l.

(** The order of a list sorted by decreasing [key] in which elements with
    equal keys stay as [before] ordered them. *)
Section Ranking.

Variable A : Type.
Variable key : A -> Q.
Variable before : A -> A -> Prop.

Definition ranks_before (x y : A) : Prop :=
  (key y < key x)%Q \/ ((key y == key x)%Q /\ before x y).

End Ranking.

(** Entries paired with their position in the store. *)
Definition by_position (x y : nat * QAEntry) : Prop := fst x < fst y.

Definition positions (store : list QAEntry) : list (nat * QAEntry) :=
  combine (seq 0 (length store)) store.

(** The entries that score above 0.3, with their positions, as
    [_get_relevant_context] sorts them. *)
Definition ranked (user_question : string) (store : list QAEntry)
  : list (nat * QAEntry) :=
  Py.sort_reverse (fun p => entry_score user_question (snd p))
    (filter (fun p => Py.lt 0.3 (entry_score user_question (snd p)))
       (positions store)).


(** ** A sequence matched against itself

    [diag_run i] is the length of the run of characters that [b2j] keeps
    (those that are not popular) ending at position [i] and starting at
    [lo] or later: what the scan of [find_longest_match] records on the
    diagonal. *)
Section Diagonal.

Variable s : list ascii.
Variable lo : nat.

Fixpoint diag_run (i : nat) : nat :=
  if Difflib.popular s (Difflib.elt s i) then 0
  else S match i with
         | 0 => 0
         | S i' => if lo <=? i' then diag_run i' else 0
         end.

Definition prev_run (i : nat) : nat :=
  match i with
  | 0 => 0
  | S i' => if lo <=? i' then diag_run i' else 0
  end.

(** The dictionary being filled while row [i] is scanned. *)
Definition row_ok (i : nat) (d : Difflib.dict) : Prop :=
  (forall j, Difflib.dict_get d j <= diag_run i)
  /\ (forall j, Difflib.dict_get d j <= diag_run j)
  /\ (forall j, j < lo -> Difflib.dict_get d j = 0).

(** The dictionary of the row before [i]. *)
Definition prev_ok (i : nat) (d : Difflib.dict) : Prop :=
  (forall j, Difflib.dict_get d j <= prev_run i)
  /\ (forall j, Difflib.dict_get d j <= diag_run j)
  /\ (forall j, j < lo -> Difflib.dict_get d j = 0)
  /\ Difflib.prev_len d i = prev_run i.

(** The best match once the rows before [n] are scanned: it lies on the
    diagonal and is at least as long as every diagonal run seen. *)
Definition best_ok (n : nat) (best : Difflib.Match) : Prop :=
  Difflib.m_a best = Difflib.m_b best
  /\ lo <= Difflib.m_a best
  /\ Difflib.m_a best + Difflib.m_size best <= n
  /\ forall i, lo <= i -> i < n -> diag_run i <= Difflib.m_size best.

End Diagonal.

(** ** The work list of [get_matching_blocks]

    A work item is a pair of ranges, one of [a] and one of [b]; the cost of
    a queue bounds the turns of the loop that remain. *)
Definition work_item : Type := (nat * nat * nat * nat)%type.

Definition span_a (it : work_item) : nat :=
  let '(alo, ahi, _, _) := it in ahi - alo.

Definition span_b (it : work_item) : nat :=
  let '(_, _, blo, bhi) := it in bhi - blo.

Definition well_formed (it : work_item) : Prop :=
  let '(alo, ahi, blo, bhi) := it in alo <= ahi /\ blo <= bhi.

Definition queue_cost (queue : list work_item) : nat :=
  fold_right (fun it n => 2 * span_a it + 1 + n) 0 queue.

Definition queue_span_a (queue : list work_item) : nat :=
  fold_right (fun it n => span_a it + n) 0 queue.

Definition queue_span_b (queue : list work_item) : nat :=
  fold_right (fun it n => span_b it + n) 0 queue.

(** ** Sample stores *)

Definition eva_question : string := "What does EVA do?".

Definition eva_answer : string :=
  "EVA is our Eligibility Verification Agent...".

(** The entry of the first scenario of the design's testable properties. *)
Definition eva_store : list QAEntry :=
  [mkEntry (Some eva_question) (Some eva_answer)].

Definition eva_agent : ThoughtfulAIAgent :=
  mkAgent (encode_store eva_store) None.

Definition eva_context : string :=
  (context_header
   ++ context_block 1 eva_question eva_answer)%string.

(** The same question stored without an answer. *)
Definition unanswered_agent : ThoughtfulAIAgent :=
  mkAgent (encode_store [mkEntry (Some eva_question) None]) None.

(** A store whose only entry has a number where the question should be,
    and a knowledge file whose top level is a list. *)
Definition numeric_question_agent : ThoughtfulAIAgent :=
  mkAgent (PList [PDict [("question"%string, PInt 5)]]) None.


(** The keywords that occur in both the query and a stored question,
    lower-cased. *)
Definition shared_keywords (user_question question : string) : list string :=
  filter (fun kw => contains kw (lower user_question)
                    && contains kw (lower question)) keywords.

(** ** The environment and the construction of the agent *)

Module Env.

(** [os.environ] *)
Definition environ : Type := string -> option string.

Definition setitem (e : environ) (key value : string) : environ :=
  fun k => if String.eqb k key then Some value else e k.

Inductive env_exn : Type := OSError | ValueError.

Definition has_null (s : string) : bool :=
  existsb (Ascii.eqb Ascii.zero) (chars s).

(** [os.environ[key] = value] (Python 3.11 on Linux): a null character in
    the name or in the value is a [ValueError], an empty name an
    [OSError]. *)
Definition assign (e : environ) (key value : string) : environ * option env_exn :=
  if has_null key || has_null value then (e, Some ValueError)
  else if is_empty key then (e, Some OSError)
  else (setitem e key value, None).

(** [line.split('=', 1)] of a line that holds an ['=']: what is before
    the first one and what is after it. *)
Fixpoint split_once (s : string) : string * string :=
  match s with
  | EmptyString => (EmptyString, EmptyString)
  | String c s' =>
      if Ascii.eqb c "=" then (EmptyString, s')
      else let (key, value) := split_once s' in (String c key, value)
  end.

(** The body of the loop [for line in f] of [load_env]. *)
Definition load_line (line : string) (e : environ) : environ * option env_exn :=
  let line := strip line in
  if negb (is_empty line) && negb (prefix "#" line) && contains "=" line
  then let (key, value) := split_once line in assign e key value
  else (e, None).

(** What a line of [.env] assigns, if it assigns. *)
Definition parse (line : string) : option (string * string) :=
  let line := strip line in
  if negb (is_empty line) && negb (prefix "#" line) && contains "=" line
  then Some (split_once line)
  else None.

Fixpoint load_lines (lines : list string) (e : environ)
  : environ * option env_exn :=
  match lines with
  | [] => (e, None)
  | line :: lines' =>
      match load_line line e with
      | (e', None) => load_lines lines' e'
      | (e', Some x) => (e', Some x)
      end
  end.

(** [load_env]: [dotenv] is [None] when the file [.env] does not exist,
    and the lines of the file otherwise.  The result is the environment
    when the function returns or raises, and the exception if it raises. *)
Definition load_env (dotenv : option (list string)) (e : environ)
  : environ * option env_exn :=
  match dotenv with
  | Some lines => load_lines lines e
  | None => (e, None)
  end.

End Env.

(** What [OpenAI(api_key=...)] does, and the fallback of
    [_initialize_openai] on the module [openai] itself. *)
Inductive Construction : Type :=
| Constructed (client : Client)
| RaisesTypeError (message : string)
| RaisesException.

Record Runtime : Type := mkRuntime {
  OpenAI : string -> Construction;
  legacy_openai : string -> option Client
}.

Module Startup.

(** [_initialize_openai]: the client it leaves in [self.openai_client]. *)
Definition initialize_openai (rt : Runtime) (e : Env.environ) : option Client :=
  match e "OPENAI_API_KEY"%string with
  | None => None
  | Some api_key =>
      if negb (Py.truthy (PStr api_key)) then None
      else
        match OpenAI rt api_key with
        | Constructed client => Some client
        | RaisesTypeError message =>
            if contains "proxies" message then legacy_openai rt api_key
            else None
        | RaisesException => None
        end
  end.

(** [__init__] *)
Definition init (rt : Runtime) (data : FileRead) (e : Env.environ)
  : result ThoughtfulAIAgent :=
  qa_data <- load_data data ;;
  Ok (mkAgent qa_data (initialize_openai rt e)).

End Startup.

(** ** The chat session *)

Record Message : Type := mkMessage {
  role : string;
  content : pyval;
  metadata : option (string * Q)
}.

Inductive Event : Type :=
| ChatInput (user_input : option string)
| SampleButton (k : nat)
| ClearChat.

Module Chat.

Definition sample_questions : list string :=
  ["What does EVA do?"; "Tell me about CAM"; "How does PHIL work?";
   "What are the benefits of using Thoughtful AI's agents?"]%string.

(** The block of [main] that a question goes through, typed or picked
    from the samples: the user's message is appended, the agent is asked,
    its reply is appended.  The result is the history, the requests made
    and the exception if [get_response] raised. *)
Definition ask (agent : ThoughtfulAIAgent) (messages : list Message)
           (question : string) (log : list Request)
  : list Message * list Request * option exn :=
  let messages := messages ++ [mkMessage "user" (PStr question) None] in
  match get_response agent question log with
  | (Ok response, log') =>
      (messages
       ++ [mkMessage "agent" (answer response)
             (Some (source response, confidence response))],
       log', None)
  | (Raise e, log') => (messages, log', Some e)
  end.

(** One run of [main] in which the widget of [ev] fired. *)
Definition handle (agent : ThoughtfulAIAgent) (messages : list Message)
           (ev : Event) (log : list Request)
  : list Message * list Request * option exn :=
  match ev with
  | ChatInput (Some user_input) =>
      if Py.truthy (PStr user_input) then ask agent messages user_input log
      else (messages, log, None)
  | ChatInput None => (messages, log, None)
  | SampleButton k =>
      match nth_error sample_questions k with
      | Some question => ask agent messages question log
      | None => (messages, log, None)
      end
  | ClearChat => ([], log, None)
  end.

(** A session: runs of [main] until one of them raises. *)
Fixpoint run (agent : ThoughtfulAIAgent) (messages : list Message)
         (events : list Event) (log : list Request)
  : list Message * list Request * option exn :=
  match events with
  | [] => (messages, log, None)
  | ev :: events' =>
      match handle agent messages ev log with
      | (messages', log', None) => run agent messages' events' log'
      | stopped => stopped
      end
  end.

End Chat.

(** A history of questions, each followed by its reply. *)
Inductive paired : list Message -> Prop :=
| paired_nil : paired []
| paired_cons (u a : Message) (rest : list Message) :
    role u = "user"%string -> metadata u = None ->
    role a = "agent"%string -> metadata a <> None ->
    paired rest -> paired (u :: a :: rest).

(** ** The test script *)

Module TestAgent.

(** [test_cases] of [test_agent.py]: the question and the expected
    source. *)
Definition test_cases : list (string * string) :=
  [("What does EVA do?", "ai_agent");
   ("Tell me about CAM", "ai_agent");
   ("How does PHIL work?", "ai_agent");
   ("What are the benefits?", "ai_agent");
   ("Tell me about the agents", "ai_agent");
   ("", "validation");
   ("What's the weather today?", "ai_general")]%string.

(** [response['answer'][:100]], which the script prints: a str or a list
    can be sliced, the other values cannot. *)
Definition sliceable (v : pyval) : bool :=
  match v with
  | PStr _ | PList _ => true
  | _ => false
  end.

(** The loop over the test cases, counting. *)
Fixpoint run_cases (agent : ThoughtfulAIAgent) (cases : list (string * string))
         (passed failed : nat) (log : list Request)
  : result (nat * nat) * list Request :=
  match cases with
  | [] => (Ok (passed, failed), log)
  | (question, expected_source) :: cases' =>
      match get_response agent question log with
      | (Raise e, log') => (Raise e, log')
      | (Ok response, log') =>
          if negb (sliceable (answer response)) then (Raise TypeError, log')
          else if String.eqb (source response) expected_source
          then run_cases agent cases' (S passed) failed log'
          else run_cases agent cases' passed (S failed) log'
      end
  end.

(** [test_agent], given the agent it builds. *)
Definition test_agent (agent : ThoughtfulAIAgent) (log : list Request)
  : result bool * list Request :=
  match run_cases agent test_cases 0 0 log with
  | (Ok (passed, failed), log') => (Ok (failed =? 0), log')
  | (Raise e, log') => (Raise e, log')
  end.

(** The source that retrieval alone gives a question on a well-formed
    store. *)
Definition expected_source (store : list QAEntry) (question : string) : string :=
  if all_space question then "validation"
  else match get_relevant_context (mkAgent (encode_store store) None) question with
       | Ok (Some _) => "ai_agent"
       | _ => "ai_general"
       end.

(** Whether a test case expects the source the store gives. *)
Definition case_holds (store : list QAEntry) (c : string * string) : bool :=
  String.eqb (expected_source store (fst c)) (snd c).

End TestAgent.

(** ** Sample services, stores and environments *)

Definition answering_client : Client := fun _ _ => Content "Hello!"%string.

Definition failing_client : Client := fun _ _ => Failure.

Definition eva_service_agent : ThoughtfulAIAgent :=
  mkAgent (encode_store eva_store) (Some answering_client).

Definition eva_failing_agent : ThoughtfulAIAgent :=
  mkAgent (encode_store eva_store) (Some failing_client).

Definition eva_shouted : string := "WHAT DOES EVA DO?"%string.

Definition payment_entry : QAEntry :=
  mkEntry (Some "Payment posting and claims processing"%string)
          (Some "See PHIL and CAM."%string).

Definition payment_question : string :=
  "claims, payment, posting, processing?"%string.

Definition empty_environ : Env.environ := fun _ => None.

Definition sample_runtime : Runtime :=
  mkRuntime (fun _ => Constructed answering_client) (fun _ => None).

Definition sample_dotenv : list string :=
  ["A=1"; "A=2"; "# A=3"; "B=4"]%string.

(** ** Comparisons of scores *)

Lemma lt_true_iff (x y : Q) : Py.lt x y = true <-> (x < y)%Q.
Proof.
  unfold Py.lt. rewrite Qlt_alt. destruct (x ?= y)%Q; split; congruence.
Qed.

Lemma lt_false_iff (x y : Q) : Py.lt x y = false <-> (y <= x)%Q.
Proof.
  split; intro H.
  - apply Qnot_lt_le. intro L. apply lt_true_iff in L. congruence.
  - destruct (Py.lt x y) eqn:E; [|reflexivity].
    apply lt_true_iff in E. exfalso. apply (Qlt_not_le _ _ E H).
Qed.

Lemma le_true_iff (x y : Q) : Py.le x y = true <-> (x <= y)%Q.
Proof.
  unfold Py.le. rewrite Qle_alt. destruct (x ?= y)%Q; split; congruence.
Qed.


Lemma min_le_r (x y : Q) : (Py.min x y <= y)%Q.
Proof.
  unfold Py.min. destruct (Py.lt y x) eqn:E.
  - apply Qle_refl.
  - now apply lt_false_iff in E.
Qed.

Lemma min_nonneg (x y : Q) : (0 <= x)%Q -> (0 <= y)%Q -> (0 <= Py.min x y)%Q.
Proof. intros Hx Hy. unfold Py.min. now destruct (Py.lt y x). Qed.

(** ** Facts about the sequence matcher *)

Module DifflibFacts.

Import Difflib.

(** *** [find_longest_match] on a sequence against itself *)

Lemma indices_in (s : list ascii) (c : ascii) (n j : nat) :
  In j (indices s c n) <-> n <= j /\ nth_error s (j - n) = Some c.
Proof.
  revert n. induction s as [|x s IH]; intro n; cbn [indices].
  - split; [intros []|]. intros [_ H]. now destruct (j - n).
  - assert (Hrest : In j (indices s c (S n))
                    <-> n < j /\ nth_error (x :: s) (j - n) = Some c).
    { rewrite IH. split; intros [Hj Hn]; (split; [lia|]).
      - replace (j - n) with (S (j - S n)) by lia. exact Hn.
      - replace (j - n) with (S (j - S n)) in Hn by lia. exact Hn. }
    destruct (Ascii.eqb_spec x c) as [->|Hne].
    + cbn [In]. rewrite Hrest. split.
      * intros [<-|[Hj Hn]]; [|split; [lia|exact Hn]].
        split; [lia|]. now rewrite Nat.sub_diag.
      * intros [Hj Hn]. destruct (Nat.eq_dec n j) as [->|Hnj]; [now left|].
        right. split; [lia|exact Hn].
    + rewrite Hrest. split.
      * intros [Hj Hn]. split; [lia|exact Hn].
      * intros [Hj Hn]. split; [|exact Hn].
        destruct (Nat.eq_dec n j) as [->|Hnj]; [|lia].
        rewrite Nat.sub_diag in Hn. cbn [nth_error] in Hn. congruence.
Qed.

Lemma indices_sorted (s : list ascii) (c : ascii) (n : nat) :
  StronglySorted lt (indices s c n).
Proof.
  revert n. induction s as [|x s IH]; intro n; cbn [indices];
    [constructor|].
  destruct (Ascii.eqb x c); [|apply IH].
  constructor; [apply IH|].
  rewrite Forall_forall. intros j Hj. apply indices_in in Hj. lia.
Qed.

Lemma indices_elt (s : list ascii) (c : ascii) (j : nat) :
  In j (indices s c 0) -> elt s j = c.
Proof.
  intro H. apply indices_in in H. destruct H as [_ H].
  rewrite Nat.sub_0_r in H. unfold elt. now apply nth_error_nth.
Qed.

Lemma indices_complete (s : list ascii) (i : nat) :
  i < length s -> In i (indices s (elt s i) 0).
Proof.
  intro H. apply indices_in. split; [lia|].
  rewrite Nat.sub_0_r. unfold elt. now apply nth_error_nth'.
Qed.

Section SelfMatch.

Variable s : list ascii.
Variable lo : nat.

Lemma diag_run_eq (i : nat) :
  diag_run s lo i
  = if popular s (elt s i) then 0 else S (prev_run s lo i).
Proof. destruct i; reflexivity. Qed.

Lemma diag_run_bound (i : nat) : lo <= i -> diag_run s lo i <= i + 1 - lo.
Proof.
  induction i as [|i IH]; intro H; rewrite diag_run_eq;
    destruct (popular s (elt s _)); cbn [prev_run]; try lia.
  destruct (lo <=? i) eqn:E; [|lia].
  apply Nat.leb_le in E. specialize (IH E). lia.
Qed.

Lemma prev_len_le (i : nat) (d : dict) (j : nat) :
  prev_ok s lo i d ->
  prev_len d j <= prev_run s lo i /\ prev_len d j <= prev_run s lo j.
Proof.
  intros (H1 & H2 & H3 & _). destruct j as [|j]; cbn [prev_len prev_run].
  - split; lia.
  - split; [apply H1|].
    destruct (lo <=? j) eqn:E; [apply H2|].
    apply Nat.leb_gt in E. rewrite (H3 j E). lia.
Qed.

Lemma scan_row_diag (i hi : nat) (d : dict) (js : list nat) :
  lo <= i -> i < hi ->
  popular s (elt s i) = false ->
  prev_ok s lo i d ->
  StronglySorted lt js ->
  (forall j, In j js -> elt s j = elt s i) ->
  forall (d' : dict) (best : Match),
    row_ok s lo i d' ->
    (In i js \/ dict_get d' i = diag_run s lo i) ->
    m_a best = m_b best ->
    lo <= m_a best ->
    m_a best + m_size best <= S i ->
    (forall i', lo <= i' -> i' < i -> diag_run s lo i' <= m_size best) ->
    (In i js \/ diag_run s lo i <= m_size best) ->
    row_ok s lo i (fst (scan_row i lo hi d js d' best))
    /\ dict_get (fst (scan_row i lo hi d js d' best)) i = diag_run s lo i
    /\ best_ok s lo (S i) (snd (scan_row i lo hi d js d' best)).
Proof.
  intros Hlo Hhi Hnp Hprev.
  assert (Hdi : diag_run s lo i = S (prev_run s lo i))
    by (rewrite diag_run_eq, Hnp; reflexivity).
  induction js as [|j js IH]; intros Hsorted Hchar d' best Hrow Hd Hab Hlob
    Hend Hseen Hbi; cbn [scan_row].
  - cbn [fst snd]. destruct Hd as [[]|Hd]. destruct Hbi as [[]|Hbi].
    split; [exact Hrow|]. split; [exact Hd|].
    unfold best_ok. repeat split; auto.
    intros i' H1 H2. destruct (Nat.eq_dec i' i) as [->|Hne]; [exact Hbi|].
    apply Hseen; lia.
  - apply StronglySorted_inv in Hsorted. destruct Hsorted as [Hsorted Hj].
    rewrite Forall_forall in Hj.
    assert (Hchar' : forall x, In x js -> elt s x = elt s i)
      by (intros x Hx; apply Hchar; now right).
    destruct (j <? lo) eqn:Ejlo.
    { apply Nat.ltb_lt in Ejlo.
      apply IH; auto.
      - destruct Hd as [[Hd|Hd]|Hd]; [lia|now left|now right].
      - destruct Hbi as [[Hb|Hb]|Hb]; [lia|now left|now right]. }
    apply Nat.ltb_ge in Ejlo.
    destruct (hi <=? j) eqn:Ejhi.
    { apply Nat.leb_le in Ejhi. cbn [fst snd].
      assert (Hni : ~ In i (j :: js)).
      { intros [Hi|Hi]; [lia|]. apply Hj in Hi. lia. }
      destruct Hd as [Hd|Hd]; [contradiction|].
      destruct Hbi as [Hbi|Hbi]; [contradiction|].
      split; [exact Hrow|]. split; [exact Hd|].
      unfold best_ok. repeat split; auto.
      intros i' H1 H2. destruct (Nat.eq_dec i' i) as [->|Hne]; [exact Hbi|].
      apply Hseen; lia. }
    apply Nat.leb_gt in Ejhi.
    set (k := prev_len d j + 1).
    assert (Hcj : elt s j = elt s i) by (apply Hchar; now left).
    assert (Hdj : diag_run s lo j = S (prev_run s lo j))
      by (rewrite diag_run_eq, Hcj, Hnp; reflexivity).
    destruct (prev_len_le j Hprev) as [Hk1 Hk2].
    assert (Hki : k <= diag_run s lo i) by (unfold k; lia).
    assert (Hkj : k <= diag_run s lo j) by (unfold k; lia).
    assert (Hkeq : j = i -> k = diag_run s lo i).
    { intros ->. destruct Hprev as (_ & _ & _ & Hp). unfold k. lia. }
    assert (Hupd : m_size best < k -> j = i).
    { intro Ek. destruct (Nat.lt_trichotomy j i) as [H|[H|H]]; [|exact H|].
      - assert (diag_run s lo j <= m_size best) by (apply Hseen; lia). lia.
      - destruct Hbi as [[Hb|Hb]|Hb]; [lia|apply Hj in Hb; lia|lia]. }
    destruct Hrow as (R1 & R2 & R3).
    apply IH; auto.
    + (* the dictionary with the new entry *)
      unfold row_ok. repeat split; intro x; cbn [dict_get];
        destruct (j =? x) eqn:Ex;
        try (apply Nat.eqb_eq in Ex; subst x); auto.
      intro Hx. lia.
    + destruct (Nat.eq_dec j i) as [Hji|Hji].
      * right. cbn [dict_get]. subst j. rewrite Nat.eqb_refl. now apply Hkeq.
      * destruct Hd as [[Hd|Hd]|Hd]; [contradiction|now left|].
        right. cbn [dict_get].
        destruct (j =? i) eqn:Ex; [apply Nat.eqb_eq in Ex; contradiction|].
        exact Hd.
    + destruct (m_size best <? k) eqn:Ek; [|exact Hab]. cbn [m_a m_b].
      apply Nat.ltb_lt in Ek. now rewrite (Hupd Ek).
    + destruct (m_size best <? k) eqn:Ek; [|exact Hlob]. cbn [m_a].
      apply Nat.ltb_lt in Ek. pose proof (diag_run_bound Hlo). lia.
    + destruct (m_size best <? k) eqn:Ek; [|exact Hend]. cbn [m_a m_size].
      pose proof (diag_run_bound Hlo). lia.
    + intros i' H1 H2. specialize (Hseen i' H1 H2).
      destruct (m_size best <? k) eqn:Ek; [|exact Hseen]. cbn [m_size].
      apply Nat.ltb_lt in Ek. lia.
    + destruct (Nat.eq_dec j i) as [Hji|Hji].
      * right. specialize (Hkeq Hji).
        destruct (m_size best <? k) eqn:Ek; cbn [m_size]; [lia|].
        apply Nat.ltb_ge in Ek. lia.
      * destruct Hbi as [[Hb|Hb]|Hb]; [contradiction|now left|].
        right. destruct (m_size best <? k) eqn:Ek; cbn [m_size]; [|exact Hb].
        apply Nat.ltb_lt in Ek. lia.
Qed.

Lemma prev_ok_nil : prev_ok s lo lo [].
Proof.
  unfold prev_ok. cbn [dict_get]. repeat split; try (intros; lia).
  destruct lo as [|l]; cbn [prev_len prev_run dict_get]; [reflexivity|].
  assert (E : (S l <=? l) = false) by (apply Nat.leb_gt; lia).
  now rewrite E.
Qed.

Lemma prev_ok_next (i : nat) (d : dict) :
  lo <= i -> row_ok s lo i d -> dict_get d i = diag_run s lo i ->
  prev_ok s lo (S i) d.
Proof.
  intros Hlo (R1 & R2 & R3) Hd. unfold prev_ok. cbn [prev_len prev_run].
  assert (E : (lo <=? i) = true) by now apply Nat.leb_le.
  rewrite E. repeat split; auto.
Qed.

Lemma best_ok_popular (i : nat) (best : Match) :
  popular s (elt s i) = true -> best_ok s lo i best ->
  best_ok s lo (S i) best.
Proof.
  intros Hp (B1 & B2 & B3 & B4). unfold best_ok. repeat split; auto.
  intros i' H1 H2. destruct (Nat.eq_dec i' i) as [->|Hne].
  - rewrite diag_run_eq, Hp. lia.
  - apply B4; lia.
Qed.

Lemma scan_rows_diag (hi n : nat) :
  hi <= length s ->
  forall (i : nat) (d : dict) (best : Match),
    lo <= i -> i + n <= hi ->
    prev_ok s lo i d -> best_ok s lo i best ->
    best_ok s lo (i + n) (scan_rows s s (seq i n) lo hi d best).
Proof.
  intro Hlen. induction n as [|n IH]; intros i d best Hlo Hin Hprev Hbest;
    cbn [seq scan_rows].
  - now rewrite Nat.add_0_r.
  - destruct (scan_row i lo hi d (b2j s (elt s i)) [] best)
      as [d' best'] eqn:E.
    replace (i + S n) with (S i + n) by lia.
    assert (H : prev_ok s lo (S i) d' /\ best_ok s lo (S i) best').
    { unfold b2j in E. destruct (popular s (elt s i)) eqn:Hp.
      - cbn [scan_row] in E. injection E as <- <-. split.
        + apply prev_ok_next; [exact Hlo| |].
          * unfold row_ok. cbn [dict_get]. repeat split; intros; lia.
          * cbn [dict_get]. rewrite diag_run_eq, Hp. reflexivity.
        + now apply best_ok_popular.
      - destruct Hbest as (B1 & B2 & B3 & B4).
        assert (Hi : In i (indices s (elt s i) 0))
          by (apply indices_complete; lia).
        assert (Hrow : row_ok s lo i []).
        { unfold row_ok. cbn [dict_get]. repeat split; intros; lia. }
        assert (Hi' : i < hi) by lia.
        pose proof (@scan_row_diag i hi d (indices s (elt s i) 0) Hlo Hi' Hp
                      Hprev (indices_sorted _ _ _)
                      (fun j Hj => indices_elt _ _ _ Hj) [] best Hrow
                      (or_introl Hi) B1 B2 ltac:(lia)
                      (fun i' H1 H2 => B4 i' H1 H2) (or_introl Hi)) as H.
        rewrite E in H. cbn [fst snd] in H. destruct H as (R & Hd & Hb).
        split; [now apply prev_ok_next|exact Hb]. }
    destruct H as [Hp' Hb']. apply IH; auto; lia.
Qed.

Lemma extend_left_diag (x sz : nat) :
  lo <= x -> extend_left s s lo lo x x sz = mkMatch lo lo (sz + (x - lo)).
Proof.
  revert sz. induction x as [|x IH]; intros sz H; cbn [extend_left].
  - replace lo with 0 by lia. now rewrite Nat.add_0_r.
  - rewrite Ascii.eqb_refl, andb_true_r, andb_diag.
    destruct (lo <? S x) eqn:E.
    + apply Nat.ltb_lt in E. rewrite IH by lia. f_equal. lia.
    + apply Nat.ltb_ge in E. replace lo with (S x) by lia.
      f_equal. lia.
Qed.

Lemma extend_right_diag (hi fuel sz : nat) :
  fuel = hi - (lo + sz) -> lo + sz <= hi ->
  extend_right s s fuel hi hi lo lo sz = mkMatch lo lo (hi - lo).
Proof.
  revert sz. induction fuel as [|fuel IH]; intros sz Hf Hle;
    cbn [extend_right].
  - f_equal. lia.
  - rewrite Ascii.eqb_refl, andb_true_r, andb_diag.
    assert (E : (lo + sz <? hi) = true) by (apply Nat.ltb_lt; lia).
    rewrite E. apply IH; lia.
Qed.

Lemma find_longest_match_self (hi : nat) :
  lo <= hi -> hi <= length s ->
  find_longest_match s s lo hi lo hi = mkMatch lo lo (hi - lo).
Proof.
  intros Hle Hlen. unfold find_longest_match.
  assert (Hinit : best_ok s lo lo (mkMatch lo lo 0)).
  { unfold best_ok. cbn [m_a m_b m_size]. repeat split; intros; lia. }
  pose proof (@scan_rows_diag hi (hi - lo) Hlen lo [] (mkMatch lo lo 0)
                (le_n lo) ltac:(lia) prev_ok_nil Hinit) as H.
  destruct (scan_rows s s (seq lo (hi - lo)) lo hi [] (mkMatch lo lo 0))
    as [x y sz].
  destruct H as (H1 & H2 & H3 & _). cbn [m_a m_b m_size] in *. subst y.
  rewrite extend_left_diag by exact H2. cbn [m_a m_b m_size].
  apply extend_right_diag; lia.
Qed.

End SelfMatch.

Lemma blocks_loop_step (a b : list ascii) (fuel alo ahi blo bhi : nat)
      (queue : list (nat * nat * nat * nat)) (acc : list Match) :
  blocks_loop a b (S fuel) ((alo, ahi, blo, bhi) :: queue) acc
  = let x := find_longest_match a b alo ahi blo bhi in
    if m_size x =? 0 then blocks_loop a b fuel queue acc
    else
      let q1 := if (alo <? m_a x) && (blo <? m_b x)
                then (alo, m_a x, blo, m_b x) :: queue else queue in
      let q2 := if (m_a x + m_size x <? ahi) && (m_b x + m_size x <? bhi)
                then (m_a x + m_size x, ahi, m_b x + m_size x, bhi) :: q1
                else q1 in
      blocks_loop a b fuel q2 (acc ++ [x]).
Proof. reflexivity. Qed.

Lemma found_blocks_self (s : list ascii) :
  found_blocks s s
  = Some (if length s =? 0 then [] else [mkMatch 0 0 (length s)]).
Proof.
  unfold found_blocks, loop_fuel.
  replace (2 * length s + 2) with (S (S (2 * length s))) by lia.
  rewrite blocks_loop_step, find_longest_match_self by lia.
  cbv zeta. cbn [m_a m_b m_size]. rewrite Nat.sub_0_r, Nat.add_0_l.
  destruct (length s =? 0); [reflexivity|].
  rewrite !Nat.ltb_irrefl. reflexivity.
Qed.

Lemma ratio_self (s : list ascii) : (ratio s s == 1)%Q.
Proof.
  unfold ratio, matches. rewrite found_blocks_self.
  destruct (length s + length s =? 0) eqn:E; [reflexivity|].
  apply Nat.eqb_neq in E.
  assert (E0 : (length s =? 0) = false) by (apply Nat.eqb_neq; lia).
  rewrite E0. cbn [sum_sizes fold_right m_size].
  rewrite Nat.add_0_r, Nat2Z.inj_add, inject_Z_plus.
  assert (Hpos : (0 < inject_Z (Z.of_nat (length s)))%Q).
  { change 0%Q with (inject_Z 0). rewrite <- Zlt_Qlt. lia. }
  field. lra.
Qed.

(** *** [find_longest_match] stays within its ranges, and the work list
    of [get_matching_blocks] empties *)

Section Bounds.

Variables a b : list ascii.

Lemma scan_row_bounds (alo i blo bhi : nat) (d : dict) (js : list nat) :
  alo <= i ->
  (forall j, dict_get d j <= i - alo) ->
  (forall j, dict_get d j <= j + 1 - blo) ->
  forall (d' : dict) (best : Match),
    (forall j, dict_get d' j <= S i - alo) ->
    (forall j, dict_get d' j <= j + 1 - blo) ->
    alo <= m_a best -> m_a best + m_size best <= S i ->
    blo <= m_b best -> m_b best + m_size best <= Nat.max blo bhi ->
    let r := scan_row i blo bhi d js d' best in
    (forall j, dict_get (fst r) j <= S i - alo)
    /\ (forall j, dict_get (fst r) j <= j + 1 - blo)
    /\ alo <= m_a (snd r) /\ m_a (snd r) + m_size (snd r) <= S i
    /\ blo <= m_b (snd r) /\ m_b (snd r) + m_size (snd r) <= Nat.max blo bhi.
Proof.
  intros Hi Hd1 Hd2.
  induction js as [|j js IH]; intros d' best H1 H2 H3 H4 H5 H6;
    cbn [scan_row].
  - cbn [fst snd]. auto 10.
  - destruct (j <? blo) eqn:Ejlo; [now apply IH|].
    apply Nat.ltb_ge in Ejlo.
    destruct (bhi <=? j) eqn:Ejhi; [cbn [fst snd]; auto 10|].
    apply Nat.leb_gt in Ejhi.
    assert (Hk1 : prev_len d j <= i - alo)
      by (destruct j; cbn [prev_len]; [lia|apply Hd1]).
    assert (Hk2 : prev_len d j <= j - blo).
    { destruct j as [|j]; cbn [prev_len]; [lia|].
      specialize (Hd2 j). lia. }
    apply IH.
    + intro x. cbn [dict_get]. destruct (j =? x); [lia|apply H1].
    + intro x. cbn [dict_get]. destruct (j =? x) eqn:E; [|apply H2].
      apply Nat.eqb_eq in E. subst x. lia.
    + destruct (m_size best <? prev_len d j + 1); cbn [m_a]; lia.
    + destruct (m_size best <? prev_len d j + 1); cbn [m_a m_size]; lia.
    + destruct (m_size best <? prev_len d j + 1); cbn [m_b]; lia.
    + destruct (m_size best <? prev_len d j + 1); cbn [m_b m_size]; lia.
Qed.

Lemma scan_rows_bounds (alo blo bhi n : nat) :
  forall (i : nat) (d : dict) (best : Match),
    alo <= i ->
    (forall j, dict_get d j <= i - alo) ->
    (forall j, dict_get d j <= j + 1 - blo) ->
    alo <= m_a best -> m_a best + m_size best <= i ->
    blo <= m_b best -> m_b best + m_size best <= Nat.max blo bhi ->
    let m := scan_rows a b (seq i n) blo bhi d best in
    alo <= m_a m /\ m_a m + m_size m <= i + n
    /\ blo <= m_b m /\ m_b m + m_size m <= Nat.max blo bhi.
Proof.
  induction n as [|n IH]; intros i d best Hi Hd1 Hd2 H3 H4 H5 H6;
    cbn [seq scan_rows].
  - rewrite Nat.add_0_r. auto.
  - pose proof (@scan_row_bounds alo i blo bhi d (b2j b (elt a i)) Hi Hd1 Hd2
                  [] best) as H.
    destruct (scan_row i blo bhi d (b2j b (elt a i)) [] best) as [d' best'].
    cbn [fst snd] in H.
    destruct H as (R1 & R2 & R3 & R4 & R5 & R6); auto;
      try (intro j; cbn [dict_get]; lia); try lia.
    replace (i + S n) with (S i + n) by lia.
    apply IH; auto; lia.
Qed.

Lemma extend_left_bounds (alo blo : nat) :
  forall (x y sz : nat),
    alo <= x -> blo <= y ->
    let m := extend_left a b alo blo x y sz in
    alo <= m_a m /\ m_a m + m_size m = x + sz
    /\ blo <= m_b m /\ m_b m + m_size m = y + sz.
Proof.
  induction x as [|x IH]; intros y sz Hx Hy; cbn [extend_left].
  - cbn [m_a m_b m_size]. auto.
  - destruct y as [|y]; [cbn [m_a m_b m_size]; auto|].
    destruct ((alo <? S x) && (blo <? S y) && Ascii.eqb (elt a x) (elt b y))
      eqn:E; [|cbn [m_a m_b m_size]; auto].
    apply andb_true_iff in E. destruct E as [E _].
    apply andb_true_iff in E. destruct E as [E1 E2].
    apply Nat.ltb_lt in E1. apply Nat.ltb_lt in E2.
    destruct (IH y (S sz)) as (M1 & M2 & M3 & M4); [lia|lia|].
    repeat split; lia.
Qed.

Lemma extend_right_bounds (ahi bhi x y : nat) :
  forall (fuel sz : nat),
    x + sz <= ahi -> y + sz <= bhi ->
    let m := extend_right a b fuel ahi bhi x y sz in
    m_a m = x /\ m_b m = y /\ sz <= m_size m
    /\ x + m_size m <= ahi /\ y + m_size m <= bhi.
Proof.
  induction fuel as [|fuel IH]; intros sz Hx Hy; cbn [extend_right].
  - cbn [m_a m_b m_size]. auto.
  - destruct ((x + sz <? ahi) && (y + sz <? bhi)
              && Ascii.eqb (elt a (x + sz)) (elt b (y + sz))) eqn:E;
      [|cbn [m_a m_b m_size]; auto 6].
    apply andb_true_iff in E. destruct E as [E _].
    apply andb_true_iff in E. destruct E as [E1 E2].
    apply Nat.ltb_lt in E1. apply Nat.ltb_lt in E2.
    destruct (IH (S sz)) as (M1 & M2 & M3 & M4 & M5); [lia|lia|].
    repeat split; lia.
Qed.

Lemma find_longest_match_bounds (alo ahi blo bhi : nat) :
  alo <= ahi -> blo <= bhi ->
  let m := find_longest_match a b alo ahi blo bhi in
  alo <= m_a m /\ m_a m + m_size m <= ahi
  /\ blo <= m_b m /\ m_b m + m_size m <= bhi.
Proof.
  intros Ha Hb. unfold find_longest_match.
  pose proof (@scan_rows_bounds alo blo bhi (ahi - alo) alo []
                (mkMatch alo blo 0)) as H.
  destruct (scan_rows a b (seq alo (ahi - alo)) blo bhi [] (mkMatch alo blo 0))
    as [x y sz].
  cbn [m_a m_b m_size dict_get] in H.
  destruct H as (H1 & H2 & H3 & H4); try lia; try (intro; lia).
  cbn [m_a m_b m_size].
  pose proof (@extend_left_bounds alo blo x y sz H1 H3) as L.
  destruct (extend_left a b alo blo x y sz) as [x' y' sz'].
  cbn [m_a m_b m_size] in *. destruct L as (L1 & L2 & L3 & L4).
  pose proof (@extend_right_bounds ahi bhi x' y'
                (ahi - (x' + sz')) sz') as R.
  destruct (extend_right a b (ahi - (x' + sz')) ahi bhi x' y' sz')
    as [x'' y'' sz''].
  cbn [m_a m_b m_size] in *.
  destruct R as (R1 & R2 & R3 & R4 & R5); lia.
Qed.

Lemma sum_sizes_app (l : list Match) (x : Match) :
  sum_sizes (l ++ [x]) = sum_sizes l + m_size x.
Proof.
  induction l as [|y l IH]; cbn [app sum_sizes fold_right]; [lia|].
  fold (sum_sizes (l ++ [x])). fold (sum_sizes l). lia.
Qed.

Lemma blocks_loop_total (fuel : nat) :
  forall (queue : list work_item) (acc : list Match),
    Forall well_formed queue ->
    queue_cost queue <= fuel ->
    exists l,
      blocks_loop a b fuel queue acc = Some l
      /\ sum_sizes l <= sum_sizes acc + queue_span_a queue
      /\ sum_sizes l <= sum_sizes acc + queue_span_b queue.
Proof.
  induction fuel as [|fuel IH]; intros queue acc Hwf Hcost.
  - destruct queue as [|it queue].
    + exists acc. cbn. repeat split; lia.
    + cbn [queue_cost fold_right] in Hcost. lia.
  - destruct queue as [|[[[alo ahi] blo] bhi] queue].
    + exists acc. cbn. repeat split; lia.
    + inversion Hwf as [|? ? Hit Hwf']; subst.
      unfold well_formed in Hit. destruct Hit as [Ha Hb].
      cbn [queue_cost queue_span_a queue_span_b fold_right span_a span_b]
        in *.
      fold (queue_cost queue) in *. fold (queue_span_a queue).
      fold (queue_span_b queue).
      rewrite blocks_loop_step. cbv zeta.
      pose proof (find_longest_match_bounds Ha Hb) as B. cbv zeta in B.
      destruct (find_longest_match a b alo ahi blo bhi) as [i j k].
      cbn [m_a m_b m_size] in *. destruct B as (B1 & B2 & B3 & B4).
      destruct (k =? 0) eqn:Ek.
      * destruct (IH queue acc Hwf') as (l & -> & S1 & S2); [lia|].
        exists l. repeat split; lia.
      * apply Nat.eqb_neq in Ek.
        set (q1 := if (alo <? i) && (blo <? j)
                   then (alo, i, blo, j) :: queue else queue).
        set (q2 := if (i + k <? ahi) && (j + k <? bhi)
                   then (i + k, ahi, j + k, bhi) :: q1 else q1).
        assert (Q1 : Forall well_formed q1
                     /\ queue_cost q1 <= queue_cost queue + 2 * (i - alo) + 1
                     /\ queue_span_a q1 <= queue_span_a queue + (i - alo)
                     /\ queue_span_b q1 <= queue_span_b queue + (j - blo)).
        { unfold q1. destruct ((alo <? i) && (blo <? j)).
          - split; [constructor; [cbn; lia|exact Hwf']|].
            cbn [queue_cost queue_span_a queue_span_b fold_right
                   span_a span_b].
            fold (queue_cost queue). fold (queue_span_a queue).
            fold (queue_span_b queue). lia.
          - split; [exact Hwf'|lia]. }
        destruct Q1 as (W1 & C1 & A1 & A1').
        assert (Q2 : Forall well_formed q2
                     /\ queue_cost q2
                        <= queue_cost q1 + 2 * (ahi - (i + k)) + 1
                     /\ queue_span_a q2 <= queue_span_a q1 + (ahi - (i + k))
                     /\ queue_span_b q2 <= queue_span_b q1 + (bhi - (j + k))).
        { unfold q2. destruct ((i + k <? ahi) && (j + k <? bhi)).
          - split; [constructor; [cbn; lia|exact W1]|].
            cbn [queue_cost queue_span_a queue_span_b fold_right
                   span_a span_b].
            fold (queue_cost q1). fold (queue_span_a q1).
            fold (queue_span_b q1). lia.
          - split; [exact W1|lia]. }
        destruct Q2 as (W2 & C2 & A2 & A2').
        destruct (IH q2 (acc ++ [mkMatch i j k]) W2) as (l & -> & S1 & S2);
          [lia|].
        rewrite sum_sizes_app in S1, S2. cbn [m_size] in S1, S2.
        exists l. repeat split; lia.
Qed.

(** The loop of [get_matching_blocks] ends within [loop_fuel] turns, and
    the blocks it finds fit side by side in either sequence. *)
Lemma found_blocks_total :
  exists l,
    found_blocks a b = Some l
    /\ sum_sizes l <= length a /\ sum_sizes l <= length b.
Proof.
  unfold found_blocks, loop_fuel.
  destruct (@blocks_loop_total (2 * length a + 2)
              [(0, length a, 0, length b)] [])
    as (l & H & S1 & S2).
  - constructor; [cbn; lia|constructor].
  - cbn. lia.
  - exists l. cbn in S1, S2. split; [exact H|]. lia.
Qed.

Lemma ratio_le_1 : (ratio a b <= 1)%Q.
Proof.
  unfold ratio, matches.
  destruct found_blocks_total as (l & -> & S1 & S2).
  destruct (length a + length b =? 0) eqn:E; [apply Qle_refl|].
  apply Nat.eqb_neq in E.
  apply Qle_shift_div_r.
  - change 0%Q with (inject_Z 0). rewrite <- Zlt_Qlt. lia.
  - rewrite Qmult_1_l. change 2%Q with (inject_Z 2).
    rewrite <- inject_Z_mult, <- Zle_Qle. lia.
Qed.

End Bounds.

End DifflibFacts.

(** ** The similarity ratio and the keyword boost *)

Lemma ratio_nonneg (a b : list ascii) : (0 <= Difflib.ratio a b)%Q.
Proof.
  unfold Difflib.ratio.
  destruct (length a + length b =? 0) eqn:E; [discriminate|].
  apply Nat.eqb_neq in E.
  apply Qle_shift_div_l.
  - change 0%Q with (inject_Z 0). rewrite <- Zlt_Qlt. lia.
  - rewrite Qmult_0_l. apply Qmult_le_0_compat; [discriminate|].
    change 0%Q with (inject_Z 0). rewrite <- Zle_Qle. lia.
Qed.

Lemma keyword_loop_str (kws : list string) (uql q : string) (acc : Q) :
  keyword_loop kws uql (PStr q) acc = Ok (boost_of kws uql (lower q) acc).
Proof.
  revert acc. induction kws as [|kw kws IH]; intro acc; simpl; [reflexivity|].
  destruct (contains kw uql); simpl; apply IH.
Qed.

Lemma boost_of_count (kws : list string) (uql ql : string) (acc : Q) :
  (boost_of kws uql ql acc ==
   acc + 0.15 * inject_Z (Z.of_nat (length
     (filter (fun kw => contains kw uql && contains kw ql) kws))))%Q.
Proof.
  revert acc. induction kws as [|kw kws IH]; intro acc; simpl.
  - ring.
  - rewrite IH. destruct (contains kw uql && contains kw ql); simpl length.
    + rewrite Nat2Z.inj_succ, <- Z.add_1_r, inject_Z_plus. ring.
    + reflexivity.
Qed.

Lemma boost_of_nonneg (kws : list string) (uql ql : string) (acc : Q) :
  (0 <= acc)%Q -> (0 <= boost_of kws uql ql acc)%Q.
Proof.
  intro H. rewrite boost_of_count.
  assert (0 <= inject_Z (Z.of_nat (length
     (filter (fun kw => contains kw uql && contains kw ql) kws))))%Q.
  { change 0%Q with (inject_Z 0). rewrite <- Zle_Qle. lia. }
  nra.
Qed.

Lemma calculate_similarity_str (s t : string) :
  calculate_similarity (PStr s) (PStr t)
  = Ok (Difflib.ratio (chars (lower s)) (chars (lower t))).
Proof. reflexivity. Qed.

Lemma total_score_bounds (uql question : string) :
  (0 <= total_score uql question <= 1)%Q.
Proof.
  unfold total_score. split.
  - apply min_nonneg; [|discriminate].
    pose proof (ratio_nonneg (chars (lower uql)) (chars (lower question))).
    pose proof (@boost_of_nonneg keywords uql (lower question) 0 (Qle_refl 0)).
    lra.
  - eapply Qle_trans; [apply min_le_r|]. discriminate.
Qed.

(** C6: the similarity of a string against itself is 1.0. *)
Theorem self_similarity_is_one (q : string) :
  exists score,
    calculate_similarity (PStr q) (PStr q) = Ok score /\ (score == 1)%Q.
Proof.
  exists (Difflib.ratio (chars (lower q)) (chars (lower q))).
  split; [apply calculate_similarity_str|apply DifflibFacts.ratio_self].
Qed.

(** C7: the combined score of a stored question, the similarity ratio plus
    0.15 for each keyword that occurs in both lower-cased strings, capped by
    [min(_, 1.0)], lies between 0 and 1; so does the similarity ratio. *)
Theorem combined_score_in_unit_interval (user_question question : string) :
  let user_question_lower := lower user_question in
  exists score keyword_boost : Q,
    calculate_similarity (PStr user_question_lower) (PStr question) = Ok score
    /\ keyword_loop keywords user_question_lower (PStr question) 0
       = Ok keyword_boost
    /\ (0 <= score <= 1)%Q
    /\ (keyword_boost ==
        0.15 * inject_Z (Z.of_nat (length
          (filter (fun kw => contains kw user_question_lower
                             && contains kw (lower question)) keywords))))%Q
    /\ Py.min (score + keyword_boost) 1.0
       = total_score user_question_lower question
    /\ (0 <= Py.min (score + keyword_boost) 1.0 <= 1)%Q.
Proof.
  intro uql.
  exists (Difflib.ratio (chars (lower uql)) (chars (lower question))),
         (boost_of keywords uql (lower question) 0).
  split; [apply calculate_similarity_str|].
  split; [apply keyword_loop_str|].
  split; [split; [apply ratio_nonneg|apply DifflibFacts.ratio_le_1]|].
  split; [rewrite boost_of_count; ring|].
  split; [reflexivity|].
  apply total_score_bounds.
Qed.

(** ** Both retrieval loops evaluate every entry, then decide *)

Arguments keyword_loop : simpl never.
Arguments boost_of : simpl never.
Arguments total_score : simpl never.
Arguments entry_score : simpl never.
Arguments calculate_similarity : simpl never.

(** One turn of a retrieval loop: each of its four computations either
    raises, and the loop with it, or gives a value. *)
Ltac loop_turn qa uql :=
  unfold evaluate;
  destruct (Py.get qa "question" (PStr "")) as [?question|]; cbn [bind];
    [|reflexivity];
  destruct (Py.get qa "answer" (PStr "")) as [?ans|]; cbn [bind];
    [|reflexivity];
  match goal with
  | |- context [calculate_similarity (PStr uql) ?q] =>
      destruct (calculate_similarity (PStr uql) q) as [?score|]; cbn [bind];
        [|reflexivity];
      destruct (keyword_loop keywords uql q 0) as [?boost|]; cbn [bind];
        [|reflexivity]
  end.

Lemma best_match_loop_factor (uql : string) (items : list pyval)
      (best_match : pyval) (best_score : Q) :
  best_match_loop uql items best_match best_score
  = (ms <- evaluate_all uql items ;; Ok (best_of ms best_match best_score)).
Proof.
  revert best_match best_score.
  induction items as [|qa items IH]; intros bm bs; [reflexivity|].
  cbn [best_match_loop evaluate_all]. loop_turn qa uql.
  rewrite !IH. destruct (evaluate_all uql items) as [ms|];
    cbn [bind best_of sm_score sm_answer];
    match goal with |- context [Py.lt bs ?t] => now destruct (Py.lt bs t) end.
Qed.

Lemma context_loop_factor (uql : string) (items : list pyval)
      (matches : list ScoredMatch) :
  context_loop uql items matches
  = (ms <- evaluate_all uql items ;; Ok (matches ++ relevant ms)).
Proof.
  revert matches.
  induction items as [|qa items IH]; intro acc.
  - cbn [context_loop evaluate_all bind relevant filter].
    now rewrite app_nil_r.
  - cbn [context_loop evaluate_all]. loop_turn qa uql.
    rewrite !IH. destruct (evaluate_all uql items) as [ms|]; cbn [bind];
      unfold relevant; cbn [filter sm_score];
      match goal with |- context [Py.lt 0.3 ?t] => destruct (Py.lt 0.3 t) end;
      try reflexivity.
    now rewrite <- app_assoc.
Qed.

Lemma get_question_encoded (e : QAEntry) :
  Py.get (encode_entry e) "question" (PStr "")
  = Ok (PStr (text_of (qa_question e))).
Proof. destruct e as [[q|] [a|]]; reflexivity. Qed.

Lemma get_answer_encoded (e : QAEntry) :
  Py.get (encode_entry e) "answer" (PStr "")
  = Ok (PStr (text_of (qa_answer e))).
Proof. destruct e as [[q|] [a|]]; reflexivity. Qed.

Lemma evaluate_encoded (uql : string) (e : QAEntry) :
  evaluate uql (encode_entry e) = Ok (scored uql e).
Proof.
  unfold evaluate.
  rewrite get_question_encoded, get_answer_encoded. cbn [bind].
  rewrite calculate_similarity_str, keyword_loop_str. reflexivity.
Qed.

Lemma evaluate_all_encoded (uql : string) (store : list QAEntry) :
  evaluate_all uql (map encode_entry store) = Ok (map (scored uql) store).
Proof.
  induction store as [|e store IH]; [reflexivity|].
  cbn [map evaluate_all]. now rewrite evaluate_encoded, IH.
Qed.

(** ** The running maximum *)

Lemma best_of_spec (ms : list ScoredMatch) (bm : pyval) (bs : Q) :
  (best_of ms bm bs = (bm, bs)
   /\ forall m, In m ms -> (sm_score m <= bs)%Q)
  \/ exists i m,
       nth_error ms i = Some m
       /\ best_of ms bm bs = (sm_answer m, sm_score m)
       /\ (bs < sm_score m)%Q
       /\ (forall j m', nth_error ms j = Some m' ->
                        (sm_score m' <= sm_score m)%Q)
       /\ (forall j m', j < i -> nth_error ms j = Some m' ->
                        (sm_score m' < sm_score m)%Q).
Proof.
  revert bm bs. induction ms as [|m ms IH]; intros bm bs; cbn [best_of].
  - left. split; [reflexivity|]. intros m [].
  - destruct (Py.lt bs (sm_score m)) eqn:E.
    + apply lt_true_iff in E.
      destruct (IH (sm_answer m) (sm_score m))
        as [[Hr Hall]|(i & m1 & Hn & Hr & Hlt & Hmax & Hfirst)].
      * right. exists 0, m. split; [reflexivity|].
        split; [exact Hr|]. split; [exact E|]. split.
        -- intros [|j] m' Hj; cbn [nth_error] in Hj.
           ++ injection Hj as <-. apply Qle_refl.
           ++ apply Hall. eapply nth_error_In; eauto.
        -- intros j m' Hj. lia.
      * right. exists (S i), m1. split; [exact Hn|].
        split; [exact Hr|]. split; [lra|]. split.
        -- intros [|j] m' Hj; cbn [nth_error] in Hj.
           ++ injection Hj as <-. lra.
           ++ eapply Hmax; eauto.
        -- intros [|j] m' Hlt' Hj; cbn [nth_error] in Hj.
           ++ injection Hj as <-. exact Hlt.
           ++ eapply Hfirst; eauto. lia.
    + apply lt_false_iff in E.
      destruct (IH bm bs)
        as [[Hr Hall]|(i & m1 & Hn & Hr & Hlt & Hmax & Hfirst)].
      * left. split; [exact Hr|]. intros m' [<-|Hin]; auto.
      * right. exists (S i), m1. split; [exact Hn|].
        split; [exact Hr|]. split; [exact Hlt|]. split.
        -- intros [|j] m' Hj; cbn [nth_error] in Hj.
           ++ injection Hj as <-. lra.
           ++ eapply Hmax; eauto.
        -- intros [|j] m' Hlt' Hj; cbn [nth_error] in Hj.
           ++ injection Hj as <-. lra.
           ++ eapply Hfirst; eauto. lia.
Qed.

(** ** [_find_best_match] on a well-formed store *)

Lemma find_best_match_encoded (client : option Client) (store : list QAEntry)
      (uq : string) (threshold : Q) :
  find_best_match (mkAgent (encode_store store) client) uq threshold
  = Ok (let best := best_of (map (scored (lower uq)) store) PNone 0 in
        if Py.le threshold (snd best) then best else (PNone, 0%Q)).
Proof.
  unfold find_best_match, encode_store. cbn [qa_data Py.truthy Py.iter].
  destruct store as [|e store].
  - cbn [map Py.is_nil negb best_of snd]. now destruct (Py.le threshold 0).
  - cbn [map Py.is_nil negb bind].
    rewrite best_match_loop_factor.
    change (encode_entry e :: map encode_entry store)
      with (map encode_entry (e :: store)).
    rewrite evaluate_all_encoded. cbn [bind].
    change (scored (lower uq) e :: map (scored (lower uq)) store)
      with (map (scored (lower uq)) (e :: store)).
    destruct (best_of (map (scored (lower uq)) (e :: store)) PNone 0) as [a s].
    cbn [fst snd]. now destruct (Py.le threshold s).
Qed.


(** ** Blank queries *)

Lemma lstrip_cases (s : string) :
  (lstrip s = EmptyString /\ all_space s = true)
  \/ exists c s', lstrip s = String c s' /\ is_space c = false
                  /\ all_space s = false.
Proof.
  induction s as [|c s IH]; cbn [lstrip all_space].
  - now left.
  - destruct (is_space c) eqn:E; cbn [andb].
    + exact IH.
    + right. now exists c, s.
Qed.

Lemma strip_empty_iff (s : string) : is_empty (strip s) = all_space s.
Proof.
  unfold strip.
  destruct (lstrip_cases s) as [[-> ->]|(c & s' & -> & Hc & ->)].
  - reflexivity.
  - cbn [rstrip]. now rewrite Hc.
Qed.

Lemma blank_iff (s : string) :
  is_empty s || is_empty (strip s) = all_space s.
Proof.
  rewrite strip_empty_iff. destruct s; reflexivity.
Qed.

(** C4: an empty or whitespace-only query gets the fixed validation
    result; nothing is raised, the store is not consulted (the result is the
    same on every store, also one on which retrieval raises) and no request
    reaches the generation service. *)
Theorem blank_query_is_rejected (self : ThoughtfulAIAgent)
        (user_question : string) (log : list Request) :
  all_space user_question = true ->
  get_response self user_question log
  = (Ok (mkResponse
           (PStr "Please ask me a question about Thoughtful AI's agents!")
           "validation" 0),
     log).
Proof.
  intro H. unfold get_response. rewrite blank_iff, H. reflexivity.
Qed.

(** ** Retrieval raises in one operation exactly when it does in the other *)

Lemma context_ok_best_match_ok (self : ThoughtfulAIAgent) (uq : string)
      (context : option string) (threshold : Q) :
  get_relevant_context self uq = Ok context ->
  exists best, find_best_match self uq threshold = Ok best.
Proof.
  unfold get_relevant_context, find_best_match.
  destruct (negb (Py.truthy (qa_data self))); [eauto|].
  destruct (Py.iter (qa_data self)) as [items|]; cbn [bind]; [|discriminate].
  rewrite context_loop_factor, best_match_loop_factor.
  destruct (evaluate_all (lower uq) items) as [ms|]; cbn [bind];
    [|discriminate].
  intros _. destruct (Py.le threshold (snd (best_of ms PNone 0))); eauto.
Qed.

Lemma direct_match_ok (self : ThoughtfulAIAgent) (uq : string)
      (context : option string) (message : string) :
  get_relevant_context self uq = Ok context ->
  exists a, direct_match self uq message = Ok a.
Proof.
  intro H. unfold direct_match.
  destruct (context_ok_best_match_ok self uq 0.5 H) as [best ->]. cbn [bind].
  destruct (Py.truthy (fst best)); eauto.
Qed.

(** C3: for a query that is not blank, the source and the confidence of
    the response follow from the context alone: [ai_agent] and 1.0 when
    [_get_relevant_context] returned one, [ai_general] and 0.5 when it
    returned [None]; this holds with no service, with a service that
    answers and with one that fails. *)
Theorem response_classification (self : ThoughtfulAIAgent)
        (user_question : string) (log : list Request)
        (context : option string) :
  all_space user_question = false ->
  get_relevant_context self user_question = Ok context ->
  exists a log',
    get_response self user_question log
    = (Ok (mkResponse a
             (match context with Some _ => "ai_agent" | None => "ai_general" end)
             (match context with Some _ => 1.0 | None => 0.5 end)%Q),
       log').
Proof.
  intros Hq Hc. unfold get_response. rewrite blank_iff, Hq, Hc.
  unfold get_llm_response.
  destruct (openai_client self) as [client|].
  - match goal with |- context [client log ?r] => destruct (client log r) end.
    + destruct context; eauto.
    + destruct (direct_match_ok self user_question service_error_message Hc)
        as [a ->].
      destruct context; eauto.
  - destruct (direct_match_ok self user_question no_service_message Hc)
      as [a ->].
    destruct context; eauto.
Qed.

(** ** Without a generation service *)

Lemma messages_differ :
  no_service_message <> service_error_message
  /\ no_service_message <> no_match_message
  /\ service_error_message <> no_match_message.
Proof.
  repeat split; apply String.eqb_neq; vm_compute; reflexivity.
Qed.

(** C5, as the code has it: with no service the composer returns the
    answer of [_find_best_match(query, 0.5)] when that answer is truthy (a
    non-empty string), and the fixed message about the API key otherwise,
    that is when nothing matched or the matched answer is empty; the three
    fixed messages are pairwise different. *)
Theorem no_service_fallback (store : pyval) (user_question : string)
        (context : option string) (log : list Request) :
  get_llm_response (mkAgent store None) user_question context log
  = (match find_best_match (mkAgent store None) user_question 0.5 with
     | Ok (a, _) => Ok (if Py.truthy a then a else PStr no_service_message)
     | Raise e => Raise e
     end, log)
  /\ (forall s, Py.truthy (PStr s) = negb (is_empty s))
  /\ no_service_message <> service_error_message
  /\ no_service_message <> no_match_message
  /\ service_error_message <> no_match_message.
Proof.
  split.
  - unfold get_llm_response, direct_match. cbn [openai_client].
    destruct (find_best_match (mkAgent store None) user_question 0.5)
      as [[a s]|]; cbn [bind fst]; [|reflexivity].
    now destruct (Py.truthy a).
  - split; [reflexivity|]. exact messages_differ.
Qed.

(** C8: with no generation service, the response to a query is a function
    of the query and the store: it is the same whatever requests were made
    before, and the call makes none. *)
Theorem get_response_deterministic (store : pyval) (user_question : string)
        (log1 log2 : list Request) :
  fst (get_response (mkAgent store None) user_question log1)
  = fst (get_response (mkAgent store None) user_question log2)
  /\ snd (get_response (mkAgent store None) user_question log1) = log1.
Proof.
  unfold get_response, get_llm_response. cbn [openai_client].
  destruct (is_empty user_question || is_empty (strip user_question));
    [split; reflexivity|].
  destruct (get_relevant_context (mkAgent store None) user_question)
    as [context|]; [|split; reflexivity].
  destruct (direct_match (mkAgent store None) user_question no_service_message);
    split; reflexivity.
Qed.

(** ** Sorting by decreasing score *)

Section SortFacts.

Variable A : Type.
Variable key : A -> Q.

Lemma insert_reverse_perm (x : A) (l : list A) :
  Permutation (Py.insert_reverse key x l) (x :: l).
Proof.
  induction l as [|y l IH]; simpl; [apply Permutation_refl|].
  destruct (Py.lt (key x) (key y)); [|apply Permutation_refl].
  eapply perm_trans; [apply perm_skip, IH|apply perm_swap].
Qed.

Lemma sort_reverse_perm (l : list A) : Permutation (Py.sort_reverse key l) l.
Proof.
  induction l as [|x l IH]; simpl; [constructor|].
  eapply perm_trans; [apply insert_reverse_perm|]. now apply perm_skip.
Qed.

Lemma sort_reverse_in (x : A) (l : list A) :
  In x (Py.sort_reverse key l) <-> In x l.
Proof.
  split; apply Permutation_in;
    [|apply Permutation_sym]; apply sort_reverse_perm.
Qed.

Lemma sort_reverse_nil (l : list A) : Py.sort_reverse key l = [] -> l = [].
Proof.
  intro H. apply Permutation_nil. rewrite <- H. apply sort_reverse_perm.
Qed.

(** Stability: [before] is the order the elements had in the list. *)
Variable before : A -> A -> Prop.

Lemma insert_reverse_sorted (x : A) (l : list A) :
  StronglySorted (ranks_before key before) l ->
  Forall (before x) l ->
  StronglySorted (ranks_before key before) (Py.insert_reverse key x l).
Proof.
  induction l as [|y l IH]; intros Hs Hb; simpl.
  - repeat constructor.
  - apply StronglySorted_inv in Hs. destruct Hs as [Hs Hy].
    inversion Hb as [|? ? Hxy Hxl]; subst.
    destruct (Py.lt (key x) (key y)) eqn:E.
    + apply lt_true_iff in E. constructor; [now apply IH|].
      eapply Permutation_Forall;
        [apply Permutation_sym, insert_reverse_perm|].
      constructor; [now left|exact Hy].
    + apply lt_false_iff in E. constructor.
      * now constructor.
      * assert (Hle : forall z, (key z <= key x)%Q -> before x z ->
                                (ranks_before key before) x z).
        { intros z Hz Hbz. apply Qle_lteq in Hz.
          destruct Hz as [Hz|Hz]; [now left|now right]. }
        constructor; [now apply Hle|].
        rewrite Forall_forall in *. intros z Hz.
        apply Hle; [|now apply Hxl].
        destruct (Hy z Hz) as [H|[H _]]; lra.
Qed.

Lemma sort_reverse_stable (l : list A) :
  StronglySorted before l ->
  StronglySorted (ranks_before key before) (Py.sort_reverse key l).
Proof.
  induction l as [|x l IH]; intro Hs; simpl; [constructor|].
  apply StronglySorted_inv in Hs. destruct Hs as [Hs Hx].
  apply insert_reverse_sorted; [now apply IH|].
  eapply Permutation_Forall; [apply Permutation_sym, sort_reverse_perm|].
  exact Hx.
Qed.

End SortFacts.

Lemma sort_reverse_map (A B : Type) (key : A -> Q) (f : B -> A) (l : list B) :
  Py.sort_reverse key (map f l)
  = map f (Py.sort_reverse (fun x => key (f x)) l).
Proof.
  assert (Hi : forall x s, Py.insert_reverse key (f x) (map f s)
                           = map f (Py.insert_reverse (fun x => key (f x)) x s)).
  { intros x s. induction s as [|y s IH]; simpl; [reflexivity|].
    destruct (Py.lt (key (f x)) (key (f y))); simpl; [now rewrite IH|reflexivity]. }
  induction l as [|x l IH]; simpl; [reflexivity|].
  now rewrite IH, Hi.
Qed.

Lemma StronglySorted_filter (A : Type) (R : A -> A -> Prop) (p : A -> bool)
      (l : list A) :
  StronglySorted R l -> StronglySorted R (filter p l).
Proof.
  induction 1 as [|x l Hs IH Hx]; simpl; [constructor|].
  destruct (p x); [|exact IH].
  constructor; [exact IH|].
  rewrite Forall_forall in *. intros y Hy. apply filter_In in Hy.
  apply Hx, Hy.
Qed.

(** ** Entries with their positions in the store *)

Lemma in_combine_seq (A : Type) (l : list A) (k i : nat) (e : A) :
  In (i, e) (combine (seq k (length l)) l)
  <-> k <= i /\ nth_error l (i - k) = Some e.
Proof.
  revert k. induction l as [|x l IH]; intro k; simpl.
  - split; [intros []|]. intros [_ H]. now destruct (i - k).
  - rewrite IH. split.
    + intros [H|[Hk Hn]].
      * injection H as <- <-. split; [lia|]. now rewrite Nat.sub_diag.
      * split; [lia|]. replace (i - k) with (S (i - S k)) by lia. exact Hn.
    + intros [Hk Hn]. destruct (Nat.eq_dec i k) as [->|Hne].
      * left. rewrite Nat.sub_diag in Hn. simpl in Hn. congruence.
      * right. split; [lia|].
        replace (i - k) with (S (i - S k)) in Hn by lia. exact Hn.
Qed.

Lemma combine_seq_sorted (A : Type) (l : list A) (k : nat) :
  StronglySorted (fun x y : nat * A => fst x < fst y)
                 (combine (seq k (length l)) l).
Proof.
  revert k. induction l as [|x l IH]; intro k; simpl; constructor.
  - apply IH.
  - rewrite Forall_forall. intros [i e] Hin.
    apply in_combine_seq in Hin. simpl. lia.
Qed.

Lemma map_snd_combine_seq (A : Type) (l : list A) (k : nat) :
  map snd (combine (seq k (length l)) l) = l.
Proof.
  revert k. induction l as [|x l IH]; intro k; simpl; [reflexivity|].
  now rewrite IH.
Qed.

(** ** [_get_relevant_context] on a well-formed store *)

Lemma append_assoc (s t u : string) : ((s ++ t) ++ u = s ++ (t ++ u))%string.
Proof. induction s as [|c s IH]; simpl; [reflexivity|now rewrite IH]. Qed.

Lemma append_nil_r (s : string) : (s ++ EmptyString = s)%string.
Proof. induction s as [|c s IH]; simpl; [reflexivity|now rewrite IH]. Qed.

Lemma format_loop_blocks (uql : string) (top : list (nat * QAEntry))
      (i : nat) (context : string) :
  format_loop i (map (fun p => scored uql (snd p)) top) context
  = (context ++ blocks_of (combine (seq i (length top)) (map snd top)))%string.
Proof.
  revert i context. induction top as [|p top IH]; intros i context;
    cbn [map format_loop length seq combine blocks_of fold_right fst snd].
  - now rewrite append_nil_r.
  - rewrite IH, append_assoc. reflexivity.
Qed.

Lemma get_relevant_context_encoded (client : option Client)
      (store : list QAEntry) (uq : string) :
  get_relevant_context (mkAgent (encode_store store) client) uq
  = Ok (let top :=
          firstn 3 (Py.sort_reverse sm_score
                      (relevant (map (scored (lower uq)) store))) in
        if Py.is_nil top then None
        else Some (format_loop 1 top context_header)).
Proof.
  destruct store as [|e store]; [reflexivity|].
  set (st := e :: store).
  assert (Ht : Py.truthy (encode_store st) = true) by reflexivity.
  unfold get_relevant_context. cbn [qa_data]. rewrite Ht.
  unfold encode_store. cbn [negb Py.iter bind].
  rewrite context_loop_factor, evaluate_all_encoded. cbn [bind app].
  cbv zeta.
  match goal with |- context [Py.is_nil ?t] => destruct (Py.is_nil t) end;
    reflexivity.
Qed.

Lemma ranked_matches (uq : string) (store : list QAEntry) :
  Py.sort_reverse sm_score (relevant (map (scored (lower uq)) store))
  = map (fun p => scored (lower uq) (snd p)) (ranked uq store).
Proof.
  unfold ranked, relevant, positions.
  rewrite <- (map_snd_combine_seq store 0) at 1.
  rewrite map_map, filter_map_swap, sort_reverse_map. reflexivity.
Qed.

Lemma in_ranked (uq : string) (store : list QAEntry) (i : nat) (e : QAEntry) :
  In (i, e) (ranked uq store)
  <-> nth_error store i = Some e /\ (0.3 < entry_score uq e)%Q.
Proof.
  unfold ranked, positions.
  rewrite sort_reverse_in, filter_In, in_combine_seq, lt_true_iff.
  rewrite Nat.sub_0_r. simpl. intuition lia.
Qed.

Lemma ranked_sorted (uq : string) (store : list QAEntry) :
  StronglySorted
    (ranks_before (fun p => entry_score uq (snd p)) by_position)
    (ranked uq store).
Proof.
  unfold ranked. apply sort_reverse_stable.
  apply StronglySorted_filter. apply combine_seq_sorted.
Qed.


(** ** A direct match implies a context *)

Lemma best_of_from (ms : list ScoredMatch) (a : pyval) (s : Q) :
  best_of ms PNone 0 = (a, s) -> a <> PNone ->
  exists m, In m ms /\ sm_score m = s.
Proof.
  intros H Ha.
  destruct (best_of_spec ms PNone 0) as [[Hr _]|(i & m & Hn & Hr & _)].
  - rewrite Hr in H. congruence.
  - exists m. split; [eapply nth_error_In; eauto|]. rewrite Hr in H. congruence.
Qed.

Lemma best_match_gives_context (self : ThoughtfulAIAgent) (uq : string)
      (a : pyval) (s : Q) :
  find_best_match self uq 0.5 = Ok (a, s) -> a <> PNone ->
  exists c, get_relevant_context self uq = Ok (Some c).
Proof.
  unfold find_best_match, get_relevant_context.
  destruct (negb (Py.truthy (qa_data self))); [congruence|].
  destruct (Py.iter (qa_data self)) as [items|]; cbn [bind]; [|discriminate].
  rewrite best_match_loop_factor, context_loop_factor.
  destruct (evaluate_all (lower uq) items) as [ms|]; cbn [bind app];
    [|discriminate].
  destruct (best_of ms PNone 0) as [bm bs] eqn:Hb. cbn [fst snd].
  destruct (Py.le 0.5 bs) eqn:Hle; [|congruence].
  intros H Ha. injection H as -> ->.
  apply le_true_iff in Hle.
  destruct (best_of_from ms Hb Ha) as (m & Hin & Hm).
  assert (Hrel : In m (relevant ms)).
  { apply filter_In. split; [exact Hin|]. apply lt_true_iff. rewrite Hm. lra. }
  destruct (Py.sort_reverse sm_score (relevant ms)) as [|x l] eqn:E.
  - apply sort_reverse_nil in E. rewrite E in Hrel. destruct Hrel.
  - cbn [firstn Py.is_nil]. eauto.
Qed.

(** C9: whenever [_find_best_match(query, 0.5)] returns an answer,
    [_get_relevant_context(query)] returns a context; hence, with no
    generation service, a response whose answer is the matched answer of
    the store has source [ai_agent] and confidence 1.0. *)
Theorem direct_match_is_ai_agent (self : ThoughtfulAIAgent)
        (user_question : string) (a : pyval) (s : Q) :
  find_best_match self user_question 0.5 = Ok (a, s) ->
  a <> PNone ->
  (exists c, get_relevant_context self user_question = Ok (Some c))
  /\ (openai_client self = None ->
      all_space user_question = false ->
      Py.truthy a = true ->
      forall log,
        get_response self user_question log
        = (Ok (mkResponse a "ai_agent" 1.0), log)).
Proof.
  intros Hb Ha.
  destruct (best_match_gives_context self user_question Hb Ha) as [c Hc].
  split; [eauto|].
  intros Hclient Hq Ht log.
  unfold get_response. rewrite blank_iff, Hq, Hc.
  unfold get_llm_response, direct_match. rewrite Hclient, Hb. cbn [bind fst].
  now rewrite Ht.
Qed.

(** ** Stores with missing fields, and stores that are not well formed *)



(** ** Case *)


Lemma is_space_lower_char (c : ascii) : is_space (lower_char c) = is_space c.
Proof. destruct c as [[] [] [] [] [] [] [] []]; reflexivity. Qed.


Lemma all_space_lower (s : string) : all_space (lower s) = all_space s.
Proof.
  induction s as [|c s IH]; cbn [lower all_space]; [reflexivity|].
  now rewrite is_space_lower_char, IH.
Qed.

(** ** The shape of a response to a query that is not blank *)

Lemma get_response_nonblank (self : ThoughtfulAIAgent) (uq : string)
      (log : list Request) (context : option string) :
  all_space uq = false ->
  get_relevant_context self uq = Ok context ->
  get_response self uq log
  = match get_llm_response self uq context log with
    | (Raise e, log') => (Raise e, log')
    | (Ok a, log') =>
        (Ok (mkResponse a
               (match context with Some _ => "ai_agent" | None => "ai_general" end)
               (match context with Some _ => 1.0 | None => 0.5 end)%Q),
         log')
    end.
Proof.
  intros Hq Hc. unfold get_response. rewrite blank_iff, Hq, Hc.
  destruct (get_llm_response self uq context log) as [[a|e] log'];
    [|reflexivity].
  now destruct context.
Qed.

(** ** Responses on a well-formed store *)

Lemma direct_match_encoded (client : option Client) (store : list QAEntry)
      (uq message : string) :
  exists a,
    direct_match (mkAgent (encode_store store) client) uq message = Ok a
    /\ (a = PStr message
        \/ exists e, In e store
                     /\ a = PStr (text_of (qa_answer e))
                     /\ (0.5 <= entry_score uq e)%Q
                     /\ is_empty (text_of (qa_answer e)) = false).
Proof.
  unfold direct_match. rewrite find_best_match_encoded. cbn [bind]. cbv zeta.
  destruct (best_of_spec (map (scored (lower uq)) store) PNone 0)
    as [[Hr _]|(i & m & Hn & Hr & _)]; rewrite Hr; cbn [snd].
  - replace (Py.le 0.5 0) with false by reflexivity.
    cbn [fst Py.truthy]. eauto.
  - rewrite nth_error_map in Hn.
    destruct (nth_error store i) as [e|] eqn:He; [|discriminate].
    injection Hn as <-. apply nth_error_In in He.
    change (sm_score (scored (lower uq) e)) with (entry_score uq e).
    destruct (Py.le 0.5 (entry_score uq e)) eqn:E;
      [|cbn [fst Py.truthy]; eauto].
    apply le_true_iff in E.
    cbn [fst sm_answer scored Py.truthy].
    destruct (is_empty (text_of (qa_answer e))) eqn:Ee; cbn [negb]; [eauto|].
    eexists. split; [reflexivity|]. right. exists e. auto.
Qed.

(** On a store of objects with string fields [get_response] never raises,
    whatever the query and the service do; source and confidence come in
    the three pairs of the code; and the answer is the validation message,
    one of the two fallback messages of [_get_llm_response], a stored
    answer of an entry scoring at least 0.5, or the text of the service. *)
Theorem get_response_total_on_wellformed_store (client : option Client)
        (store : list QAEntry) (user_question : string) (log : list Request) :
  exists r log',
    get_response (mkAgent (encode_store store) client) user_question log
    = (Ok r, log')
    /\ ((source r = "validation"%string /\ confidence r = 0%Q)
        \/ (source r = "ai_agent"%string /\ confidence r = 1.0%Q)
        \/ (source r = "ai_general"%string /\ confidence r = 0.5%Q))
    /\ (answer r = PStr validation_message
        \/ answer r = PStr no_service_message
        \/ answer r = PStr service_error_message
        \/ (exists e, In e store
                      /\ answer r = PStr (text_of (qa_answer e))
                      /\ (0.5 <= entry_score user_question e)%Q)
        \/ (exists c request text,
               client = Some c /\ c log request = Content text
               /\ answer r = PStr text)).
Proof.
  set (self := mkAgent (encode_store store) client).
  destruct (all_space user_question) eqn:Hq.
  - exists (mkResponse (PStr validation_message) "validation" 0), log.
    split; [|cbn [source confidence answer]; auto].
    unfold get_response. rewrite blank_iff, Hq. reflexivity.
  - pose proof (get_relevant_context_encoded client store user_question) as Hc.
    cbv zeta in Hc.
    match type of Hc with _ = Ok ?c => set (context := c) in Hc end.
    fold self in Hc.
    rewrite (get_response_nonblank self user_question log Hq Hc).
    assert (Hsrc : forall a,
               let r := mkResponse a
                          (match context with
                           | Some _ => "ai_agent" | None => "ai_general"
                           end)
                          (match context with Some _ => 1.0 | None => 0.5 end)%Q in
               (source r = "validation"%string /\ confidence r = 0%Q)
               \/ (source r = "ai_agent"%string /\ confidence r = 1.0%Q)
               \/ (source r = "ai_general"%string /\ confidence r = 0.5%Q)).
    { intro a. cbn [source confidence]. destruct context; auto. }
    unfold get_llm_response. cbn [openai_client self].
    destruct client as [c|].
    + match goal with |- context [c log ?req] =>
        destruct (c log req) as [text|] eqn:Hreq
      end.
      * eexists. eexists. split; [reflexivity|]. split; [apply Hsrc|].
        cbn [answer]. right. right. right. right.
        exists c. eexists. exists text.
        split; [reflexivity|]. split; [exact Hreq|reflexivity].
      * destruct (direct_match_encoded (Some c) store user_question
                    service_error_message) as (a & Ha & Hcase).
        fold self in Ha. rewrite Ha.
        eexists. eexists. split; [reflexivity|]. split; [apply Hsrc|].
        cbn [answer]. destruct Hcase as [->|(e & He & -> & Hs & _)].
        -- right. right. left. reflexivity.
        -- right. right. right. left. exists e. auto.
    + destruct (direct_match_encoded None store user_question
                  no_service_message) as (a & Ha & Hcase).
      fold self in Ha. rewrite Ha.
      eexists. eexists. split; [reflexivity|]. split; [apply Hsrc|].
      cbn [answer]. destruct Hcase as [->|(e & He & -> & Hs & _)].
      * right. left. reflexivity.
      * right. right. right. left. exists e. auto.
Qed.

(** ** The generation service *)

Lemma format_loop_nonempty (top : list ScoredMatch) (i : nat) (c : string) :
  is_empty c = false -> is_empty (format_loop i top c) = false.
Proof.
  revert i c. induction top as [|m top IH]; intros i c H; cbn [format_loop];
    [exact H|].
  apply IH. now destruct c.
Qed.

Lemma context_nonempty (self : ThoughtfulAIAgent) (uq c : string) :
  get_relevant_context self uq = Ok (Some c) -> is_empty c = false.
Proof.
  unfold get_relevant_context.
  destruct (negb (Py.truthy (qa_data self))); [discriminate|].
  destruct (Py.iter (qa_data self)) as [items|]; cbn [bind]; [|discriminate].
  destruct (context_loop (lower uq) items []) as [ms|]; cbn [bind];
    [|discriminate].
  cbv zeta.
  destruct (Py.is_nil (firstn 3 (Py.sort_reverse sm_score ms)));
    [discriminate|].
  intro H. injection H as <-. now apply format_loop_nonempty.
Qed.

(** With a generation service, a query that is not blank costs exactly one
    request: it carries the query as it was typed, the persona as system
    text, followed by the context and the instruction when a context was
    found; when the service answers, its text is the answer, whatever the
    store holds; when it fails there is no second attempt. *)
Theorem service_is_asked_once (self : ThoughtfulAIAgent) (client : Client)
        (user_question : string) (log : list Request)
        (context : option string) :
  openai_client self = Some client ->
  all_space user_question = false ->
  get_relevant_context self user_question = Ok context ->
  exists request,
    snd (get_response self user_question log) = (log ++ [request])%list
    /\ model request = "gpt-3.5-turbo"%string
    /\ user_content request = user_question
    /\ max_tokens request = 200
    /\ system_content request
       = match context with
         | Some c => (system_persona ++ Py.nl ++ Py.nl ++ c
                      ++ context_instruction)%string
         | None => system_persona
         end
    /\ forall text,
         client log request = Content text ->
         fst (get_response self user_question log)
         = Ok (mkResponse (PStr text)
                 (match context with
                  | Some _ => "ai_agent" | None => "ai_general"
                  end)
                 (match context with Some _ => 1.0 | None => 0.5 end)%Q).
Proof.
  intros Hclient Hq Hc.
  rewrite (get_response_nonblank self user_question log Hq Hc).
  unfold get_llm_response. rewrite Hclient.
  match goal with |- context [client log ?req] => set (request := req) end.
  exists request.
  assert (Hsys : system_content request
                 = match context with
                   | Some c => (system_persona ++ Py.nl ++ Py.nl ++ c
                                ++ context_instruction)%string
                   | None => system_persona
                   end).
  { unfold request. cbn [system_content]. destruct context as [c|];
      [|reflexivity].
    now rewrite (context_nonempty self user_question Hc). }
  destruct (client log request) as [text|] eqn:Hr.
  - cbn [fst snd]. repeat split; auto.
    intros text' H. now injection H as <-.
  - destruct (direct_match self user_question service_error_message)
      as [a|e]; cbn [fst snd]; repeat split; auto; discriminate.
Qed.

Lemma same_store_same_retrieval (self : ThoughtfulAIAgent)
      (client : option Client) (uq : string) :
  (forall th, find_best_match (mkAgent (qa_data self) client) uq th
              = find_best_match self uq th)
  /\ get_relevant_context (mkAgent (qa_data self) client) uq
     = get_relevant_context self uq.
Proof. split; reflexivity. Qed.

(** When the service fails, the response is the one the agent gives with
    no service at all, as soon as the store has a direct match with a
    non-empty answer; otherwise the answer is the message about trouble
    processing the question. *)
Theorem failed_service_answers_from_store (self : ThoughtfulAIAgent)
        (client : Client) (user_question : string) (log : list Request)
        (context : option string) :
  openai_client self = Some client ->
  (forall request, client log request = Failure) ->
  all_space user_question = false ->
  get_relevant_context self user_question = Ok context ->
  exists a s,
    find_best_match self user_question 0.5 = Ok (a, s)
    /\ fst (get_response self user_question log)
       = Ok (mkResponse
               (if Py.truthy a then a else PStr service_error_message)
               (match context with
                | Some _ => "ai_agent" | None => "ai_general"
                end)
               (match context with Some _ => 1.0 | None => 0.5 end)%Q)
    /\ (Py.truthy a = true ->
        fst (get_response self user_question log)
        = fst (get_response (mkAgent (qa_data self) None) user_question log)).
Proof.
  intros Hclient Hfail Hq Hc.
  destruct (context_ok_best_match_ok self user_question 0.5 Hc)
    as [[a s] Hb].
  exists a, s. split; [exact Hb|].
  destruct (same_store_same_retrieval self None user_question) as [Hb' Hc'].
  rewrite (get_response_nonblank self user_question log Hq Hc).
  rewrite Hc in Hc'.
  rewrite (get_response_nonblank (mkAgent (qa_data self) None) user_question
             log Hq Hc').
  unfold get_llm_response, direct_match. rewrite Hclient, Hfail.
  cbn [openai_client]. rewrite Hb', Hb. cbn [bind fst].
  destruct (Py.truthy a); cbn [fst]; split; try reflexivity; discriminate.
Qed.

(** ** Thresholds and case *)

(** A match found at one threshold is found, the same, at every lower
    threshold. *)
Theorem lower_threshold_keeps_match (self : ThoughtfulAIAgent)
        (user_question : string) (t t' : Q) (a : pyval) (s : Q) :
  (t' <= t)%Q ->
  find_best_match self user_question t = Ok (a, s) ->
  a <> PNone ->
  find_best_match self user_question t' = Ok (a, s).
Proof.
  intros Ht. unfold find_best_match.
  destruct (negb (Py.truthy (qa_data self))); [congruence|].
  destruct (Py.iter (qa_data self)) as [items|]; cbn [bind]; [|discriminate].
  destruct (best_match_loop (lower user_question) items PNone 0)
    as [[bm bs]|]; cbn [bind fst snd]; [|discriminate].
  destruct (Py.le t bs) eqn:E; [|congruence].
  apply le_true_iff in E.
  assert (E' : Py.le t' bs = true) by (apply le_true_iff; lra).
  now rewrite E'.
Qed.

(** Retrieval depends on the query through its lower-casing only, and so
    does the whole response when there is no generation service. *)
Theorem query_case_is_ignored (self : ThoughtfulAIAgent) (q q' : string) :
  lower q = lower q' ->
  (forall th, find_best_match self q th = find_best_match self q' th)
  /\ get_relevant_context self q = get_relevant_context self q'
  /\ (openai_client self = None ->
      forall log, get_response self q log = get_response self q' log).
Proof.
  intro H.
  assert (Hb : forall th, find_best_match self q th
                          = find_best_match self q' th)
    by (intro th; unfold find_best_match; now rewrite H).
  assert (Hc : get_relevant_context self q = get_relevant_context self q')
    by (unfold get_relevant_context; now rewrite H).
  split; [exact Hb|]. split; [exact Hc|].
  intros Hclient log. unfold get_response.
  rewrite !blank_iff, <- (all_space_lower q), <- (all_space_lower q'), H, Hc.
  unfold get_llm_response, direct_match. now rewrite Hclient, Hb.
Qed.

Lemma total_score_lower_question (uql question question' : string) :
  lower question = lower question' ->
  total_score uql question = total_score uql question'.
Proof. intro H. unfold total_score. now rewrite H. Qed.

Lemma best_of_ext (ms ms' : list ScoredMatch) :
  Forall2 (fun m m' => sm_answer m = sm_answer m' /\ sm_score m = sm_score m')
          ms ms' ->
  forall bm bs, best_of ms bm bs = best_of ms' bm bs.
Proof.
  induction 1 as [|m m' ms ms' [Ha Hs] _ IH]; intros bm bs; cbn [best_of];
    [reflexivity|].
  rewrite Ha, Hs. now rewrite !IH.
Qed.

(** The best match does not depend on the case of the stored questions:
    two stores with the same answers and with questions equal up to case
    give the same answer and score. *)
Theorem stored_case_is_ignored (client : option Client)
        (store store' : list QAEntry) (user_question : string) (th : Q) :
  Forall2 (fun e e' =>
             lower (text_of (qa_question e)) = lower (text_of (qa_question e'))
             /\ text_of (qa_answer e) = text_of (qa_answer e'))
          store store' ->
  find_best_match (mkAgent (encode_store store) client) user_question th
  = find_best_match (mkAgent (encode_store store') client) user_question th.
Proof.
  intro H. rewrite !find_best_match_encoded.
  rewrite (@best_of_ext (map (scored (lower user_question)) store)
             (map (scored (lower user_question)) store')); [reflexivity|].
  induction H as [|e e' l l' [Hq Ha] _ IH]; cbn [map]; constructor;
    [|exact IH].
  cbn [scored sm_answer sm_score]. split; [now rewrite Ha|].
  now apply total_score_lower_question.
Qed.

(** ** Stored questions asked again *)


Lemma min_ge (x c : Q) : (c <= x)%Q -> (c <= 1)%Q -> (c <= Py.min x 1.0)%Q.
Proof.
  intros Hx Hc. unfold Py.min. destruct (Py.lt 1.0 x); lra.
Qed.




(** ** The best match and the context *)

Lemma get_relevant_context_ranked (client : option Client)
      (store : list QAEntry) (uq : string) :
  get_relevant_context (mkAgent (encode_store store) client) uq
  = Ok (match ranked uq store with
        | [] => None
        | _ :: _ =>
            Some (context_header
                  ++ blocks_of (combine (seq 1 (length (firstn 3 (ranked uq store))))
                                  (map snd (firstn 3 (ranked uq store)))))%string
        end).
Proof.
  rewrite get_relevant_context_encoded. cbv zeta.
  rewrite ranked_matches, firstn_map.
  destruct (ranked uq store) as [|p r] eqn:E; [reflexivity|].
  rewrite format_loop_blocks. reflexivity.
Qed.

Lemma ranked_head (uq : string) (store : list QAEntry) (i : nat) (e : QAEntry) :
  nth_error store i = Some e ->
  (0.3 < entry_score uq e)%Q ->
  (forall j e', nth_error store j = Some e' ->
                (entry_score uq e' <= entry_score uq e)%Q) ->
  (forall j e', j < i -> nth_error store j = Some e' ->
                (entry_score uq e' < entry_score uq e)%Q) ->
  exists tl, ranked uq store = (i, e) :: tl.
Proof.
  intros He Hs Hmax Hfirst.
  assert (Hin : In (i, e) (ranked uq store)) by (apply in_ranked; now split).
  pose proof (ranked_sorted uq store) as Hsorted.
  destruct (ranked uq store) as [|[i0 e0] tl] eqn:E; [destruct Hin|].
  exists tl. destruct Hin as [Hin|Hin]; [now rewrite Hin|].
  exfalso.
  assert (H0 : nth_error store i0 = Some e0).
  { apply (in_ranked uq store i0 e0). rewrite E. now left. }
  apply StronglySorted_inv in Hsorted. destruct Hsorted as [_ Hall].
  rewrite Forall_forall in Hall. specialize (Hall _ Hin).
  unfold ranks_before, by_position in Hall. cbn [fst snd] in Hall.
  specialize (Hmax i0 e0 H0).
  destruct Hall as [Hlt|[Heq Hpos]]; [lra|].
  specialize (Hfirst i0 e0 Hpos H0). lra.
Qed.

(** The two retrieval operations agree: the entry whose answer
    [_find_best_match] returns is the first block of the context that
    [_get_relevant_context] builds for the same query. *)
Theorem best_match_is_first_block (client : option Client)
        (store : list QAEntry) (user_question : string) (a : pyval) (s : Q) :
  let self := mkAgent (encode_store store) client in
  find_best_match self user_question 0.5 = Ok (a, s) ->
  a <> PNone ->
  exists e rest,
    In e store
    /\ a = PStr (text_of (qa_answer e))
    /\ s = entry_score user_question e
    /\ get_relevant_context self user_question
       = Ok (Some (context_header
                   ++ context_block 1 (text_of (qa_question e))
                        (text_of (qa_answer e))
                   ++ rest)%string).
Proof.
  intros self Hb Ha. unfold self in *.
  rewrite find_best_match_encoded in Hb. cbv zeta in Hb.
  set (uql := lower user_question) in *.
  assert (Hs : forall j x, nth_error store j = Some x ->
                           nth_error (map (scored uql) store) j
                           = Some (scored uql x))
    by (intros j x Hj; now apply map_nth_error).
  destruct (best_of_spec (map (scored uql) store) PNone 0)
    as [[Hr _]|(i & m & Hn & Hr & _ & Hmax & Hfirst)]; rewrite Hr in Hb;
    cbn [snd] in Hb.
  - destruct (Py.le 0.5 0); congruence.
  - rewrite nth_error_map in Hn.
    destruct (nth_error store i) as [e|] eqn:He; [|discriminate].
    injection Hn as <-.
    change (sm_score (scored uql e)) with (entry_score user_question e) in *.
    destruct (Py.le 0.5 (entry_score user_question e)) eqn:E; [|congruence].
    apply le_true_iff in E.
    injection Hb as <- <-.
    destruct (@ranked_head user_question store i e He) as [tl Htl].
    + lra.
    + intros j e' Hj. exact (Hmax j _ (Hs j e' Hj)).
    + intros j e' Hji Hj. exact (Hfirst j _ Hji (Hs j e' Hj)).
    + exists e. eexists. split; [eapply nth_error_In; eauto|].
      split; [reflexivity|]. split; [reflexivity|].
      rewrite get_relevant_context_ranked, Htl.
      cbn [firstn length map snd seq combine blocks_of fold_right fst].
      reflexivity.
Qed.

(** ** Keywords alone *)

Lemma entry_score_ge_boost (uq : string) (e : QAEntry) (c : Q) :
  (c <= 1)%Q ->
  (c <= 0.15 * inject_Z (Z.of_nat
          (length (shared_keywords uq (text_of (qa_question e))))))%Q ->
  (c <= entry_score uq e)%Q.
Proof.
  intros Hc Hk. unfold entry_score, total_score. apply min_ge; [|exact Hc].
  pose proof (ratio_nonneg (chars (lower (lower uq)))
                (chars (lower (text_of (qa_question e))))) as Hr.
  pose proof (boost_of_count keywords (lower uq)
                (lower (text_of (qa_question e))) 0) as Hb.
  unfold shared_keywords in Hk. lra.
Qed.

(** Shared keywords decide by themselves: a stored question that shares
    three keywords with the query gives a context, so the response is
    [ai_agent] with confidence 1.0 whatever the service does, and one that
    shares four gives a direct match, however little the two texts have
    in common. *)
Theorem shared_keywords_suffice (client : option Client)
        (store : list QAEntry) (user_question : string) (e : QAEntry) :
  In e store ->
  all_space user_question = false ->
  let self := mkAgent (encode_store store) client in
  let shared := length (shared_keywords user_question
                          (text_of (qa_question e))) in
  (3 <= shared ->
   forall log, exists a log',
     get_response self user_question log
     = (Ok (mkResponse a "ai_agent" 1.0), log'))
  /\ (4 <= shared ->
      exists a s, find_best_match self user_question 0.5 = Ok (PStr a, s)
                  /\ (0.6 <= s)%Q).
Proof.
  intros He Hq self shared. split; intro Hk.
  - assert (Hs : (0.45 <= entry_score user_question e)%Q).
    { apply entry_score_ge_boost; [lra|]. fold shared.
      assert (inject_Z 3 <= inject_Z (Z.of_nat shared))%Q
        by (rewrite <- Zle_Qle; lia).
      change (inject_Z 3) with 3%Q in H. lra. }
    intro log.
    apply In_nth_error in He. destruct He as [i Hi].
    assert (Hin : In (i, e) (ranked user_question store))
      by (apply in_ranked; split; [exact Hi|lra]).
    pose proof (get_relevant_context_ranked client store user_question) as Hc.
    fold self in Hc.
    destruct (ranked user_question store) as [|p tl]; [destruct Hin|].
    rewrite (get_response_nonblank self user_question log Hq Hc).
    destruct (direct_match_ok self user_question service_error_message Hc)
      as [a1 H1].
    destruct (direct_match_ok self user_question no_service_message Hc)
      as [a2 H2].
    unfold get_llm_response. cbn [openai_client self].
    destruct client as [c|].
    + match goal with |- context [c log ?req] => destruct (c log req) end.
      * eauto.
      * fold self. rewrite H1. eauto.
    + fold self. rewrite H2. eauto.
  - assert (Hs : (0.6 <= entry_score user_question e)%Q).
    { apply entry_score_ge_boost; [lra|]. fold shared.
      assert (inject_Z 4 <= inject_Z (Z.of_nat shared))%Q
        by (rewrite <- Zle_Qle; lia).
      change (inject_Z 4) with 4%Q in H. lra. }
    unfold self. rewrite find_best_match_encoded. cbv zeta.
    set (uql := lower user_question).
    destruct (best_of_spec (map (scored uql) store) PNone 0)
      as [[_ Hall]|(i & m & Hn & Hr & _ & Hmax & _)].
    + exfalso. assert (H := Hall (scored uql e) (in_map _ _ _ He)).
      change (sm_score (scored uql e)) with (entry_score user_question e) in H.
      lra.
    + rewrite nth_error_map in Hn.
      destruct (nth_error store i) as [e'|] eqn:He'; [|discriminate].
      injection Hn as <-.
      apply In_nth_error in He. destruct He as [j Hj].
      assert (H := Hmax j _ (map_nth_error (scored uql) j store Hj)).
      change (sm_score (scored uql e)) with (entry_score user_question e) in H.
      change (sm_score (scored uql e'))
        with (entry_score user_question e') in *.
      rewrite Hr. cbn [snd].
      assert (E : Py.le 0.5 (entry_score user_question e') = true)
        by (apply le_true_iff; lra).
      rewrite E. eexists. eexists. split; [reflexivity|]. lra.
Qed.

(** ** A store that is empty or falsy *)

(** A store that Python takes for false (the empty list of a missing or
    unreadable file, but also [null], [0], [""] or [{}] under
    ['questions']) is never iterated: nothing matches, no context is found,
    and a query that is not blank is answered as [ai_general] with
    confidence 0.5, by the message about the API key when there is no
    service. *)
Theorem falsy_store_matches_nothing (client : option Client) (store : pyval)
        (user_question : string) (log : list Request) :
  Py.truthy store = false ->
  let self := mkAgent store client in
  (forall th, find_best_match self user_question th = Ok (PNone, 0%Q))
  /\ get_relevant_context self user_question = Ok None
  /\ (all_space user_question = false ->
      exists a log',
        get_response self user_question log
        = (Ok (mkResponse a "ai_general" 0.5), log')
        /\ (client = None -> a = PStr no_service_message /\ log' = log)).
Proof.
  intros Hf self.
  assert (Hb : forall th, find_best_match self user_question th
                          = Ok (PNone, 0%Q))
    by (intro th; unfold find_best_match; cbn [qa_data self];
        now rewrite Hf).
  assert (Hc : get_relevant_context self user_question = Ok None)
    by (unfold get_relevant_context; cbn [qa_data self]; now rewrite Hf).
  split; [exact Hb|]. split; [exact Hc|].
  intro Hq. rewrite (get_response_nonblank self user_question log Hq Hc).
  unfold get_llm_response, direct_match. cbn [openai_client self].
  fold self. rewrite Hb. cbn [bind fst Py.truthy].
  destruct client as [c|].
  - match goal with |- context [c log ?req] => destruct (c log req) end;
      eexists; eexists; (split; [reflexivity|discriminate]).
  - eexists. eexists. split; [reflexivity|]. auto.
Qed.

(** ** Loading [.env] *)

Import Env.

Lemma rstrip_all_space (s : string) :
  all_space s = true -> rstrip s = EmptyString.
Proof.
  induction s as [|c s IH]; cbn [all_space rstrip]; [reflexivity|].
  intro H. apply andb_true_iff in H. destruct H as [Hc Hs].
  now rewrite (IH Hs), Hc.
Qed.

Lemma lstrip_app_space (ws s : string) :
  all_space ws = true -> lstrip (ws ++ s) = lstrip s.
Proof.
  induction ws as [|c ws IH]; cbn [all_space append lstrip]; [reflexivity|].
  intro H. apply andb_true_iff in H. destruct H as [Hc Hs].
  rewrite Hc. now apply IH.
Qed.

Lemma lstrip_fixed_app (s t : string) :
  is_empty s = false -> lstrip s = s -> lstrip (s ++ t) = (s ++ t)%string.
Proof.
  destruct s as [|c s]; [discriminate|]. intros _ H.
  cbn [append lstrip] in *. destruct (is_space c) eqn:E; [|reflexivity].
  exfalso. clear -H.
  assert (L : forall x, String.length (lstrip x) <= String.length x).
  { induction x as [|a x IH]; cbn [lstrip String.length]; [lia|].
    destruct (is_space a); cbn [String.length]; lia. }
  specialize (L s). rewrite H in L. cbn [String.length] in L. lia.
Qed.

Lemma rstrip_app_space (s ws : string) :
  all_space ws = true -> rstrip (s ++ ws) = rstrip s.
Proof.
  intro H. induction s as [|c s IH]; cbn [append rstrip].
  - now apply rstrip_all_space.
  - now rewrite IH.
Qed.

Lemma rstrip_fixed_app (s t : string) :
  is_empty t = false -> rstrip t = t -> rstrip (s ++ t) = (s ++ t)%string.
Proof.
  intros Ht H. induction s as [|c s IH]; cbn [append rstrip]; [exact H|].
  rewrite IH.
  assert (E : is_empty (s ++ t) = false) by (destruct s; [exact Ht|reflexivity]).
  rewrite E, andb_false_r. reflexivity.
Qed.

Lemma contains_eq_cons (c : ascii) (s : string) :
  contains "=" (String c s) = Ascii.eqb c "=" || contains "=" s.
Proof.
  assert (Hp : prefix "=" (String c s) = Ascii.eqb c "=").
  { cbn [prefix]. destruct (ascii_dec "=" c) as [<-|Hne].
    - now destruct s.
    - destruct (Ascii.eqb_spec c "=") as [->|_]; [contradiction|reflexivity]. }
  cbn [contains]. now rewrite Hp.
Qed.

Lemma split_once_assignment (key value : string) :
  contains "=" key = false ->
  split_once (key ++ String "=" value) = (key, value)
  /\ contains "=" (key ++ String "=" value) = true.
Proof.
  induction key as [|c key IH]; intro H.
  - split; [reflexivity|]. cbn [append]. rewrite contains_eq_cons.
    reflexivity.
  - rewrite contains_eq_cons in H. apply orb_false_iff in H.
    destruct H as [Hc Hk]. destruct (IH Hk) as [IH1 IH2].
    cbn [append split_once]. rewrite Hc, IH1. split; [reflexivity|].
    rewrite contains_eq_cons, IH2. apply orb_true_r.
Qed.

Lemma load_line_parse (line : string) (e : environ) :
  load_line line e
  = match parse line with
    | Some (key, value) => assign e key value
    | None => (e, None)
    end.
Proof.
  unfold load_line, parse. cbv zeta.
  destruct (negb (is_empty (strip line)) && negb (prefix "#" (strip line))
            && contains "=" (strip line)); reflexivity.
Qed.

Lemma parse_assignment (key value pad1 pad2 : string) :
  all_space pad1 = true -> all_space pad2 = true ->
  is_empty key = false -> lstrip key = key -> rstrip value = value ->
  prefix "#" key = false -> contains "=" key = false ->
  parse (pad1 ++ key ++ String "=" value ++ pad2) = Some (key, value).
Proof.
  intros H1 H2 Hk Hl Hr Hc He.
  assert (Hv : rstrip (String "=" value) = String "=" value)
    by (cbn [rstrip]; rewrite Hr; reflexivity).
  assert (Hs : strip (pad1 ++ key ++ String "=" value ++ pad2)
               = (key ++ String "=" value)%string).
  { unfold strip. rewrite lstrip_app_space by exact H1.
    rewrite lstrip_fixed_app by assumption.
    change (String "=" value ++ pad2)%string
      with (String "=" (value ++ pad2)).
    change (String "=" (value ++ pad2))
      with (String "=" value ++ pad2)%string.
    rewrite <- append_assoc, rstrip_app_space by exact H2.
    now apply rstrip_fixed_app. }
  unfold parse. cbv zeta. rewrite Hs.
  destruct (@split_once_assignment key value He) as [Hsp Hin].
  rewrite Hsp, Hin.
  destruct key as [|c key]; [discriminate|].
  cbn [append is_empty negb andb].
  cbn [prefix] in Hc |- *.
  destruct (ascii_dec "#" c); [destruct key; discriminate|reflexivity].
Qed.

(** A line [NAME=VALUE] of [.env], with any white space around it, sets
    [NAME] to [VALUE] and nothing else: the name is what stands before the
    first ['='] (spaces before the ['='] belong to it) and the value what
    stands after it (it may hold ['='] and begin with spaces), provided the
    name is not empty, does not begin with ['#'] and neither holds a null
    character. *)
Theorem env_line_round_trip (key value pad1 pad2 : string) (e : environ) :
  all_space pad1 = true -> all_space pad2 = true ->
  is_empty key = false -> lstrip key = key -> rstrip value = value ->
  prefix "#" key = false -> contains "=" key = false ->
  has_null key = false -> has_null value = false ->
  exists e',
    load_env (Some [pad1 ++ key ++ String "=" value ++ pad2]%string) e
    = (e', None)
    /\ e' key = Some value
    /\ forall k, k <> key -> e' k = e k.
Proof.
  intros H1 H2 Hk Hl Hr Hc He Hn1 Hn2.
  exists (setitem e key value). cbn [load_env load_lines].
  rewrite load_line_parse, (@parse_assignment key value pad1 pad2) by assumption.
  unfold assign. rewrite Hn1, Hn2, Hk. cbn [orb].
  split; [reflexivity|]. unfold setitem. split.
  - now rewrite String.eqb_refl.
  - intros k Hne. apply String.eqb_neq in Hne. now rewrite Hne.
Qed.

Lemma assign_ok (e e' : environ) (key value : string) :
  assign e key value = (e', None) -> e' = setitem e key value.
Proof.
  unfold assign. destruct (has_null key || has_null value); [discriminate|].
  destruct (is_empty key); [discriminate|]. now intro H; injection H as <-.
Qed.

Lemma assign_raises (e e' : environ) (key value : string) (x : env_exn) :
  assign e key value = (e', Some x) -> e' = e.
Proof.
  unfold assign. destruct (has_null key || has_null value);
    [now intro H; injection H as <- _|].
  destruct (is_empty key); [now intro H; injection H as <- _|discriminate].
Qed.

Lemma load_lines_untouched (lines : list string) (e e' : environ) (k : string) :
  load_lines lines e = (e', None) ->
  (forall line v, In line lines -> parse line <> Some (k, v)) ->
  e' k = e k.
Proof.
  revert e. induction lines as [|line lines IH]; intros e H Hno;
    cbn [load_lines] in H.
  - now injection H as <-.
  - destruct (load_line line e) as [e1 [x|]] eqn:E; [discriminate|].
    rewrite (IH e1 H) by (intros l v Hl; apply Hno; now right).
    rewrite load_line_parse in E.
    destruct (parse line) as [[key value]|] eqn:Ep;
      [|now injection E as <-].
    apply assign_ok in E. subst e1. unfold setitem.
    destruct (String.eqb_spec k key) as [->|Hne]; [|reflexivity].
    exfalso. apply (Hno line value); [now left|exact Ep].
Qed.

(** After [.env] is loaded without an exception, a variable holds the
    value of the last line that assigns it, whatever it held before, and a
    variable that no line assigns holds what it held before. *)
Theorem env_last_assignment_wins (before after : list string) (line : string)
        (e e' : environ) (k v : string) :
  load_env (Some (before ++ line :: after)) e = (e', None) ->
  parse line = Some (k, v) ->
  (forall l v', In l after -> parse l <> Some (k, v')) ->
  e' k = Some v
  /\ forall k', (forall l v', In l (before ++ line :: after) ->
                              parse l <> Some (k', v')) ->
                e' k' = e k'.
Proof.
  cbn [load_env]. intros H Hp Hafter. split.
  - revert e H. induction before as [|b before IH]; intros e H;
      cbn [app load_lines] in H.
    + destruct (load_line line e) as [e1 [x|]] eqn:E; [discriminate|].
      rewrite (@load_lines_untouched after e1 e' k H Hafter).
      rewrite load_line_parse, Hp in E. apply assign_ok in E. subst e1.
      unfold setitem. now rewrite String.eqb_refl.
    + destruct (load_line b e) as [e1 [x|]]; [discriminate|].
      exact (IH e1 H).
  - intros k' Hno. exact (@load_lines_untouched _ e e' k' H Hno).
Qed.

(** A line that assigns to the empty name (it begins with ['=']) stops
    the loading with an [OSError]: the lines before it have taken effect,
    the lines after it are never read. *)
Theorem env_empty_name_stops_loading (before after : list string)
        (line value : string) (e e1 : environ) :
  load_env (Some before) e = (e1, None) ->
  parse line = Some (EmptyString, value) ->
  has_null value = false ->
  load_env (Some (before ++ line :: after)) e = (e1, Some OSError).
Proof.
  cbn [load_env]. intros H Hp Hn.
  revert e H. induction before as [|b before IH]; intros e H;
    cbn [app load_lines] in *.
  - injection H as <-. rewrite load_line_parse, Hp. unfold assign.
    cbn [has_null chars list_ascii_of_string existsb orb is_empty].
    now rewrite Hn.
  - destruct (load_line b e) as [e2 [x|]]; [discriminate|].
    exact (IH e2 H).
Qed.

(** ** Starting without an API key *)

Lemma no_client_no_request (self : ThoughtfulAIAgent) (uq : string)
      (log : list Request) :
  openai_client self = None -> snd (get_response self uq log) = log.
Proof.
  intro H. unfold get_response.
  destruct (is_empty uq || is_empty (strip uq)); [reflexivity|].
  destruct (get_relevant_context self uq) as [context|]; [|reflexivity].
  unfold get_llm_response. rewrite H.
  now destruct (direct_match self uq no_service_message).
Qed.

(** When [OPENAI_API_KEY] is unset or empty, the agent is built without a
    client, whatever the constructors of the library would do, and then
    no query ever reaches a generation service. *)
Theorem no_api_key_no_service (rt : Runtime) (data : FileRead)
        (e : Env.environ) (self : ThoughtfulAIAgent) :
  e "OPENAI_API_KEY"%string = None
  \/ e "OPENAI_API_KEY"%string = Some EmptyString ->
  Startup.init rt data e = Ok self ->
  openai_client self = None
  /\ forall user_question log,
       snd (get_response self user_question log) = log.
Proof.
  intros Hkey Hinit. unfold Startup.init in Hinit.
  destruct (load_data data) as [qa|]; cbn [bind] in Hinit; [|discriminate].
  injection Hinit as <-.
  assert (Hc : Startup.initialize_openai rt e = None)
    by (unfold Startup.initialize_openai; destruct Hkey as [-> | ->];
        reflexivity).
  cbn [openai_client]. split; [exact Hc|].
  intros uq log. now apply no_client_no_request.
Qed.

(** ** The chat history *)

Lemma get_response_encoded (client : option Client) (store : list QAEntry)
      (uq : string) (log : list Request) :
  exists a conf log',
    get_response (mkAgent (encode_store store) client) uq log
    = (Ok (mkResponse (PStr a) (TestAgent.expected_source store uq) conf),
       log').
Proof.
  set (self := mkAgent (encode_store store) client).
  unfold TestAgent.expected_source.
  rewrite (get_relevant_context_ranked None store uq).
  destruct (all_space uq) eqn:Hq.
  - exists validation_message, 0%Q, log.
    unfold get_response. rewrite blank_iff, Hq. reflexivity.
  - pose proof (get_relevant_context_ranked client store uq) as Hc.
    fold self in Hc.
    rewrite (get_response_nonblank self uq log Hq Hc).
    destruct (direct_match_encoded client store uq service_error_message)
      as (a1 & H1 & Hcase1).
    destruct (direct_match_encoded client store uq no_service_message)
      as (a2 & H2 & Hcase2).
    fold self in H1, H2.
    assert (P1 : exists t, a1 = PStr t)
      by (destruct Hcase1 as [->|(e & _ & -> & _)]; eauto).
    assert (P2 : exists t, a2 = PStr t)
      by (destruct Hcase2 as [->|(e & _ & -> & _)]; eauto).
    destruct P1 as [t1 ->]. destruct P2 as [t2 ->].
    unfold get_llm_response. cbn [openai_client self]. fold self.
    destruct client as [c|].
    + match goal with |- context [c log ?req] => destruct (c log req) end.
      * destruct (ranked uq store); do 3 eexists; reflexivity.
      * rewrite H1. destruct (ranked uq store); do 3 eexists; reflexivity.
    + rewrite H2. destruct (ranked uq store); do 3 eexists; reflexivity.
Qed.

Lemma paired_app (l l' : list Message) :
  paired l -> paired l' -> paired (l ++ l').
Proof.
  induction 1 as [|u a rest Hu Hmu Ha Hma _ IH]; intro H'; cbn [app];
    [exact H'|].
  constructor; auto.
Qed.

Lemma paired_even (l : list Message) : paired l -> Nat.even (length l) = true.
Proof. induction 1; cbn [length Nat.even]; auto. Qed.

(** On a store of objects with string fields, a question adds exactly
    two messages to the history, the question and then the reply with the
    source and the confidence of the response, and leaves the earlier
    messages alone; hence a session never raises and its history, which
    starts empty, always consists of questions each followed by its
    reply, through any sequence of inputs, sample buttons and clearings. *)
Theorem chat_history_stays_paired (client : option Client)
        (store : list QAEntry) :
  let agent := mkAgent (encode_store store) client in
  (forall messages question log,
      exists response log',
        get_response agent question log = (Ok response, log')
        /\ Chat.ask agent messages question log
           = (messages
              ++ [mkMessage "user" (PStr question) None;
                  mkMessage "agent" (answer response)
                    (Some (source response, confidence response))],
              log', None))
  /\ forall events messages log,
       paired messages ->
       exists messages' log',
         Chat.run agent messages events log = (messages', log', None)
         /\ paired messages'.
Proof.
  intro agent.
  assert (Hask : forall messages question log,
             exists response log',
               get_response agent question log = (Ok response, log')
               /\ Chat.ask agent messages question log
                  = (messages
                     ++ [mkMessage "user" (PStr question) None;
                         mkMessage "agent" (answer response)
                           (Some (source response, confidence response))],
                     log', None)).
  { intros messages question log.
    destruct (get_response_encoded client store question log)
      as (a & conf & log' & H).
    fold agent in H. eexists. exists log'. split; [exact H|].
    unfold Chat.ask. rewrite H. rewrite <- app_assoc. reflexivity. }
  split; [exact Hask|].
  assert (Hpair : forall messages question log,
             paired messages ->
             exists messages' log',
               Chat.ask agent messages question log = (messages', log', None)
               /\ paired messages').
  { intros messages question log Hp.
    destruct (Hask messages question log) as (r & log' & _ & ->).
    eexists. eexists. split; [reflexivity|].
    apply paired_app; [exact Hp|].
    constructor; try reflexivity; [discriminate|constructor]. }
  induction events as [|ev events IH]; intros messages log Hp;
    cbn [Chat.run].
  - eauto.
  - assert (Hh : exists messages' log',
               Chat.handle agent messages ev log = (messages', log', None)
               /\ paired messages').
    { destruct ev as [[user_input|]|k|]; cbn [Chat.handle].
      - destruct (Py.truthy (PStr user_input)); [now apply Hpair|eauto].
      - eauto.
      - destruct (nth_error Chat.sample_questions k); [now apply Hpair|eauto].
      - eexists. eexists. split; [reflexivity|constructor]. }
    destruct Hh as (messages' & log' & -> & Hp'). now apply IH.
Qed.

(** If [get_response] raises, as it does on a store with a malformed
    entry, the question stays in the history without a reply: the history
    is no longer made of questions each followed by its reply. *)
Theorem raised_question_stays_unanswered (agent : ThoughtfulAIAgent)
        (messages : list Message) (question : string) (log log' : list Request)
        (e : exn) :
  paired messages ->
  get_response agent question log = (Raise e, log') ->
  Chat.ask agent messages question log
  = ((messages ++ [mkMessage "user" (PStr question) None])%list, log', Some e)
  /\ ~ paired (messages ++ [mkMessage "user" (PStr question) None]).
Proof.
  intros Hp H. unfold Chat.ask. rewrite H. split; [reflexivity|].
  intro Hp'. apply paired_even in Hp, Hp'.
  rewrite length_app, Nat.add_comm in Hp'. cbn [length Nat.add] in Hp'.
  rewrite Nat.even_succ, <- Nat.negb_even, Hp in Hp'. discriminate.
Qed.

(** ** The test script *)

Import TestAgent.

Lemma run_cases_encoded (client : option Client) (store : list QAEntry)
      (cases : list (string * string)) :
  forall passed failed log,
  exists log',
    run_cases (mkAgent (encode_store store) client) cases passed failed log
    = (Ok (passed + length (filter (case_holds store) cases),
           failed + length (filter (fun c => negb (case_holds store c)) cases)),
       log').
Proof.
  induction cases as [|[question expected] cases IH];
    intros passed failed log; cbn [run_cases filter length].
  - exists log. now rewrite !Nat.add_0_r.
  - destruct (get_response_encoded client store question log)
      as (a & conf & log1 & ->).
    cbn [answer source sliceable negb].
    change (String.eqb (expected_source store question) expected)
      with (case_holds store (question, expected)).
    destruct (case_holds store (question, expected)); cbn [negb length].
    + destruct (IH (S passed) failed log1) as [log' ->]. exists log'.
      now rewrite <- Nat.add_succ_comm.
    + destruct (IH passed (S failed) log1) as [log' ->]. exists log'.
      now rewrite <- Nat.add_succ_comm.
Qed.

Lemma no_failure_forallb (A : Type) (p : A -> bool) (l : list A) :
  (length (filter (fun x => negb (p x)) l) =? 0) = forallb p l.
Proof.
  induction l as [|x l IH]; cbn [filter forallb length]; [reflexivity|].
  destruct (p x); cbn [negb andb length]; [exact IH|reflexivity].
Qed.

(** What the test script checks: on a store of objects with string
    fields it never raises, and it succeeds exactly when every case
    expects the source that retrieval alone gives its question; the
    outcome is the same with no generation service, with one that answers
    and with one that fails. *)
Theorem test_agent_checks_retrieval_only (client : option Client)
        (store : list QAEntry) (log : list Request) :
  exists log',
    test_agent (mkAgent (encode_store store) client) log
    = (Ok (forallb (case_holds store) test_cases), log').
Proof.
  unfold test_agent.
  destruct (run_cases_encoded client store test_cases 0 0 log) as [log' ->].
  exists log'. cbn [Nat.add]. now rewrite no_failure_forallb.
Qed.

(** ** The scenarios *)

(** The first scenario of the design: the stored question, asked as it is
    stored, with no generation service. *)
Example eva_scenario :
  get_response eva_agent eva_question []
  = (Ok (mkResponse (PStr eva_answer) "ai_agent" 1.0), []).
Proof. vm_compute. reflexivity. Qed.

Lemma blank_query_is_rejected_witness :
  all_space "   " = true
  /\ get_response eva_agent "   " []
     = (Ok (mkResponse
              (PStr "Please ask me a question about Thoughtful AI's agents!")
              "validation" 0),
        []).
Proof.
  split; [reflexivity|].
  apply (blank_query_is_rejected eva_agent "   " []). reflexivity.
Defined.

Lemma response_classification_witness :
  all_space eva_question = false
  /\ get_relevant_context eva_agent eva_question = Ok (Some eva_context)
  /\ exists a log',
       get_response eva_agent eva_question []
       = (Ok (mkResponse a "ai_agent" 1.0), log').
Proof.
  split; [reflexivity|]. split; [vm_compute; reflexivity|].
  apply (response_classification eva_agent eva_question []
           (context := Some eva_context)).
  - reflexivity.
  - vm_compute. reflexivity.
Defined.

Lemma direct_match_is_ai_agent_witness :
  find_best_match eva_agent eva_question 0.5 = Ok (PStr eva_answer, 1.0%Q)
  /\ PStr eva_answer <> PNone
  /\ (exists c, get_relevant_context eva_agent eva_question = Ok (Some c))
  /\ get_response eva_agent eva_question []
     = (Ok (mkResponse (PStr eva_answer) "ai_agent" 1.0), []).
Proof.
  assert (Hb : find_best_match eva_agent eva_question 0.5
               = Ok (PStr eva_answer, 1.0%Q)) by (vm_compute; reflexivity).
  assert (Hne : PStr eva_answer <> PNone) by discriminate.
  split; [exact Hb|]. split; [exact Hne|].
  destruct (direct_match_is_ai_agent eva_agent eva_question Hb Hne)
    as [Hc Hr].
  split; [exact Hc|].
  apply Hr; reflexivity.
Defined.

(** C5 as stated fails on an entry without an answer: [_find_best_match]
    returns its answer, the empty string, with score 1.0, and the composer
    returns the message about the API key instead. *)
Lemma no_service_empty_answer_counterexample :
  find_best_match unanswered_agent eva_question 0.5 = Ok (PStr "", 1.0%Q)
  /\ PStr "" <> PNone
  /\ fst (get_llm_response unanswered_agent eva_question None [])
     = Ok (PStr no_service_message)
  /\ Ok (PStr no_service_message) <> Ok (PStr "").
Proof.
  split; [vm_compute; reflexivity|]. split; [discriminate|].
  split; [vm_compute; reflexivity|].
  intro H. injection H as H. apply (f_equal String.length) in H.
  vm_compute in H. discriminate H.
Qed.



(** ** Further scenarios *)
(** A service that answers: one request, and its text is the answer. *)
Lemma service_is_asked_once_witness :
  openai_client eva_service_agent = Some answering_client
  /\ all_space eva_question = false
  /\ exists request,
       snd (get_response eva_service_agent eva_question []) = [request]
       /\ user_content request = eva_question
       /\ fst (get_response eva_service_agent eva_question [])
          = Ok (mkResponse (PStr "Hello!") "ai_agent" 1.0).
Proof.
  split; [reflexivity|]. split; [reflexivity|].
  destruct (@service_is_asked_once eva_service_agent answering_client
              eva_question [] (Some eva_context) eq_refl eq_refl
              ltac:(vm_compute; reflexivity))
    as (request & H1 & _ & H3 & _ & _ & H6).
  exists request. split; [exact H1|]. split; [exact H3|].
  apply H6. reflexivity.
Defined.

(** A service that fails: the stored answer about EVA is given. *)
Lemma failed_service_answers_from_store_witness :
  openai_client eva_failing_agent = Some failing_client
  /\ fst (get_response eva_failing_agent eva_question [])
     = fst (get_response eva_agent eva_question []).
Proof.
  split; [reflexivity|].
  destruct (@failed_service_answers_from_store eva_failing_agent
              failing_client eva_question [] (Some eva_context) eq_refl
              (fun _ => eq_refl) eq_refl ltac:(vm_compute; reflexivity))
    as (a & s & Hb & _ & H).
  assert (Heva : find_best_match eva_failing_agent eva_question 0.5
                 = Ok (PStr eva_answer, 1.0%Q)) by (vm_compute; reflexivity).
  rewrite Heva in Hb. injection Hb as <- <-.
  apply H. reflexivity.
Defined.

(** The match about EVA at 0.5 is found at 0.3. *)
Lemma lower_threshold_keeps_match_witness :
  find_best_match eva_agent eva_question 0.3 = Ok (PStr eva_answer, 1.0%Q).
Proof.
  apply (@lower_threshold_keeps_match eva_agent eva_question 0.5 0.3
           (PStr eva_answer) 1.0).
  - apply Qle_bool_imp_le. reflexivity.
  - vm_compute. reflexivity.
  - discriminate.
Defined.

(** The question about EVA in capitals. *)
Lemma query_case_is_ignored_witness :
  lower eva_shouted = lower eva_question
  /\ get_response eva_agent eva_shouted []
     = get_response eva_agent eva_question [].
Proof.
  split; [reflexivity|].
  destruct (@query_case_is_ignored eva_agent eva_shouted eva_question eq_refl)
    as (_ & _ & H).
  apply H. reflexivity.
Defined.

(** The question about EVA stored in capitals. *)
Lemma stored_case_is_ignored_witness :
  find_best_match
    (mkAgent (encode_store [mkEntry (Some eva_shouted) (Some eva_answer)]) None)
    eva_question 0.5
  = find_best_match eva_agent eva_question 0.5.
Proof.
  apply (@stored_case_is_ignored None
           [mkEntry (Some eva_shouted) (Some eva_answer)] eva_store
           eva_question 0.5).
  constructor; [split; reflexivity|constructor].
Defined.


(** The answer about EVA opens the context. *)
Lemma best_match_is_first_block_witness :
  exists e rest,
    In e eva_store
    /\ get_relevant_context eva_agent eva_question
       = Ok (Some (context_header
                   ++ context_block 1 (text_of (qa_question e))
                        (text_of (qa_answer e))
                   ++ rest)%string).
Proof.
  destruct (@best_match_is_first_block None eva_store eva_question
              (PStr eva_answer) 1.0 ltac:(vm_compute; reflexivity)
              ltac:(discriminate))
    as (e & rest & He & _ & _ & H).
  exists e, rest. split; [exact He|exact H].
Defined.

(** A query of four keywords against a question that holds them. *)
Lemma shared_keywords_suffice_witness :
  length (shared_keywords payment_question
            (text_of (qa_question payment_entry))) = 4
  /\ (exists a log',
         get_response (mkAgent (encode_store [payment_entry]) None)
           payment_question []
         = (Ok (mkResponse a "ai_agent" 1.0), log'))
  /\ exists a s,
       find_best_match (mkAgent (encode_store [payment_entry]) None)
         payment_question 0.5 = Ok (PStr a, s)
       /\ (0.6 <= s)%Q.
Proof.
  assert (H4 : length (shared_keywords payment_question
                         (text_of (qa_question payment_entry))) = 4)
    by (vm_compute; reflexivity).
  split; [exact H4|].
  destruct (@shared_keywords_suffice None [payment_entry] payment_question
              payment_entry (or_introl eq_refl) eq_refl) as [H1 H2].
  split.
  - apply H1. rewrite H4. repeat constructor.
  - apply H2. rewrite H4. constructor.
Defined.

(** [null] under [questions] and no service. *)
Lemma falsy_store_matches_nothing_witness :
  Py.truthy PNone = false
  /\ get_response (mkAgent PNone None) eva_question []
     = (Ok (mkResponse (PStr no_service_message) "ai_general" 0.5), []).
Proof.
  split; [reflexivity|].
  destruct (@falsy_store_matches_nothing None PNone eva_question [] eq_refl)
    as (_ & _ & H).
  destruct (H eq_refl) as (a & log' & Hr & Hn).
  destruct (Hn eq_refl) as [-> ->]. exact Hr.
Defined.

(** An indented line of [.env] that ends in a newline. *)
Lemma env_line_round_trip_witness :
  exists e',
    Env.load_env (Some ["  OPENAI_API_KEY=sk-test" ++ Py.nl]%string)
                 empty_environ
    = (e', None)
    /\ e' "OPENAI_API_KEY"%string = Some "sk-test"%string.
Proof.
  destruct (@env_line_round_trip "OPENAI_API_KEY" "sk-test" "  " Py.nl
              empty_environ eq_refl eq_refl eq_refl eq_refl eq_refl eq_refl
              eq_refl eq_refl eq_refl) as (e' & H & Hk & _).
  exists e'. split; [exact H|exact Hk].
Defined.

(** A variable assigned twice, and a comment. *)
Lemma env_last_assignment_wins_witness :
  fst (Env.load_env (Some sample_dotenv) empty_environ) "A"%string
  = Some "2"%string
  /\ fst (Env.load_env (Some sample_dotenv) empty_environ) "C"%string = None.
Proof.
  destruct (@env_last_assignment_wins ["A=1"%string] ["# A=3"; "B=4"]%string
              "A=2" empty_environ
              (fst (Env.load_env (Some sample_dotenv) empty_environ))
              "A" "2")
    as [H1 H2].
  - vm_compute. reflexivity.
  - reflexivity.
  - intros l v' [<-|[<-|[]]]; vm_compute; discriminate.
  - split; [exact H1|].
    rewrite (H2 "C"%string); [reflexivity|].
    intros l v' [<-|[<-|[<-|[<-|[]]]]]; vm_compute; intro H;
      try discriminate H; injection H as H _; discriminate H.
Defined.

(** A line that begins with an equals sign. *)
Lemma env_empty_name_stops_loading_witness :
  snd (Env.load_env (Some ["A=1"; "=oops"; "B=2"]%string) empty_environ)
  = Some Env.OSError
  /\ fst (Env.load_env (Some ["A=1"; "=oops"; "B=2"]%string) empty_environ)
       "B"%string = None.
Proof.
  pose proof (@env_empty_name_stops_loading ["A=1"%string] ["B=2"%string]
                "=oops" "oops" empty_environ
                (fst (Env.load_env (Some ["A=1"%string]) empty_environ))
                ltac:(vm_compute; reflexivity) eq_refl eq_refl) as H.
  cbn [app] in H. rewrite H. split; reflexivity.
Defined.

(** No knowledge file and no API key. *)
Lemma no_api_key_no_service_witness :
  snd (get_response (mkAgent (PList []) None) eva_question []) = [].
Proof.
  destruct (@no_api_key_no_service sample_runtime FileNotFoundError
              empty_environ (mkAgent (PList []) None) (or_introl eq_refl)
              eq_refl) as [_ H].
  apply H.
Defined.

(** A stored question that is a number. *)
Lemma raised_question_stays_unanswered_witness :
  Chat.ask numeric_question_agent [] "hi" []
  = ([mkMessage "user" (PStr "hi") None], [], Some AttributeError).
Proof.
  destruct (@raised_question_stays_unanswered numeric_question_agent []
              "hi" [] [] AttributeError paired_nil
              ltac:(vm_compute; reflexivity)) as [H _].
  exact H.
Defined.

